(** * status-go jail: cells, Parse, Send and the result/error envelopes

    A shallow embedding of [geth/jail/jail.go] and of the [call] script of
    [geth/jail/rxsend_test.go], with the properties of the jail's
    specification stated and proved over it.

    Conventions.
    - Go [string]s are [string]s (sequences of bytes).
    - A Go [error] is a value of [error]; a nil error is the absence of one.
    - Script values ([otto.Value], and the Go values handed to the engine)
      are [Value]s: data trees.  Numbers are the integral ones.
    - A Go panic raised through [throwJSException] becomes [Thrown]; a Go
      runtime error becomes [Panicked].
    - The sources are written for the Go of their time, earlier than 1.22:
      the variable of a [range] clause is one variable for the whole loop,
      assigned anew in each iteration. *)

From Stdlib Require Import ZArith Ascii String List Lia DecimalString.
From stdpp Require Import gmap strings list.

Open Scope string_scope.
Set Warnings "-register-all".

(* ===================================================================== *)
(** * Text helpers *)
(* ===================================================================== *)

(** The double quote character (byte 34). *)
Definition dquote : ascii := ascii_of_nat 34.

(** The backslash character (byte 92). *)
Definition backslash : ascii := ascii_of_nat 92.

(** [lit s] is [s] with every single quote turned into a double quote; it is
    only used to write JSON texts legibly in examples. *)
Fixpoint lit (s : string) : string :=
  match s with
  | EmptyString => EmptyString
  | String c s' => String (if Ascii.eqb c "'" then dquote else c) (lit s')
  end.

(** Go's [%v] of a [bool]. *)
Definition fmt_bool (b : bool) : string := if b then "true" else "false".

(** [isInfixOf p s]: [p] occurs in [s] as a contiguous run of bytes. *)
Fixpoint isInfixOf (p s : string) : bool :=
  String.prefix p s ||
  match s with
  | EmptyString => false
  | String _ s' => isInfixOf p s'
  end.

(* ===================================================================== *)
(** * encoding/json: strings *)
(* ===================================================================== *)

Module Json.

Definition hex : string := "0123456789abcdef".

Definition hexdigit (n : nat) : ascii :=
  match String.get n hex with Some c => c | None => "0"%char end.

(** What [encodeState.string] (with HTML escaping, as [json.Marshal] has
    it) writes for one byte below 0x80: the quote and the backslash get a
    backslash, newline, carriage return and tab their two-letter escapes,
    the other control bytes and [<], [>], [&] a [\u00XX] escape. *)
Definition escape_byte (c : ascii) : string :=
  let n := nat_of_ascii c in
  if Ascii.eqb c dquote || Ascii.eqb c backslash then
    String backslash (String c EmptyString)
  else if Nat.eqb n 10 then String backslash "n"
  else if Nat.eqb n 13 then String backslash "r"
  else if Nat.eqb n 9 then String backslash "t"
  else if Nat.ltb n 32 || Ascii.eqb c "<" || Ascii.eqb c ">" || Ascii.eqb c "&" then
    String backslash ("u00" ++ String (hexdigit (n / 16))
                                (String (hexdigit (n mod 16)) EmptyString))
  else String c EmptyString.

(** The body of a JSON string.  Bytes from 0x80 on are copied, which is
    what the encoder does on well-formed UTF-8 text (U+2028 and U+2029
    apart). *)
Fixpoint escape (s : string) : string :=
  match s with
  | EmptyString => EmptyString
  | String c s' => escape_byte c ++ escape s'
  end.

(** A Go string as a JSON string literal. *)
Definition quote (s : string) : string :=
  String dquote (escape s ++ String dquote EmptyString).

End Json.

(* ===================================================================== *)
(** * Errors *)
(* ===================================================================== *)

(** A Go [error] as [Send] tells them apart: its dynamic type is
    [common.StopRPCCallError] or something else; [Error] is its text. *)
Inductive error : Type :=
| StopRPCCallError (msg : string)
| OtherError (msg : string).

Definition Error (e : error) : string :=
  match e with
  | StopRPCCallError m => m
  | OtherError m => m
  end.

(** [errors.New("jail environment is not properly initialized")]. *)
Definition ErrInvalidJail : error :=
  OtherError "jail environment is not properly initialized".

(** Results of fallible Go calls: [(v, nil)] is [Ok v], [(_, err)] is
    [Err err]. *)
Inductive result (E A : Type) : Type :=
| Ok (a : A)
| Err (e : E).
Arguments Ok {E A} a.
Arguments Err {E A} e.

(* ===================================================================== *)
(** * The result/error envelopes: makeError, makeResult *)
(* ===================================================================== *)

(** [makeError]: [json.Marshal(&JSONError{Error: error})]. *)
Definition makeError (error : string) : string :=
  "{" ++ Json.quote "error" ++ ":" ++ Json.quote error ++ "}".

(** [makeResult(res, err)]: the error envelope when [err] is not nil,
    otherwise [ {"result": res} ] with the text "undefined" replaced by
    "null". *)
Definition makeResult (res : string) (err : option error) : string :=
  match err with
  | Some e => makeError (Error e)
  | None =>
      let res := if String.eqb "undefined" res then "null" else res in
      "{" ++ Json.quote "result" ++ ": " ++ res ++ "}"
  end.

(* ===================================================================== *)
(** * Values, RPC calls and responses *)
(* ===================================================================== *)

(** Script values and the Go data handed to the engine.  [VFunction f] is
    the script function named [f].  [VReqID] is the Go pointer [&req.ID]
    that [Send] takes of the variable [req] of its request loop: a reader
    of the value gets what [req.ID] holds when it reads. *)
Inductive Value : Type :=
| VUndefined
| VNull
| VBool (b : bool)
| VNumber (n : Z)
| VString (s : string)
| VArray (elems : list Value)
| VObject (props : list (string * Value))
| VFunction (f : string)
| VReqID.

(** A Go [map[string]interface{}], and the properties of a script object. *)
Abbreviation Props := (list (string * Value)).

Fixpoint assoc (k : string) (ps : Props) : option Value :=
  match ps with
  | [] => None
  | (k', v) :: ps' => if String.eqb k k' then Some v else assoc k ps'
  end.

(** [field k v]: the property [k] of the object [v]. *)
Definition field (k : string) (v : Value) : option Value :=
  match v with
  | VObject ps => assoc k ps
  | _ => None
  end.

(** Modelled from the spec: [common.RPCCall], which [geth/common] declares
    and the sources do not include.  The specification's data model has
    [{ method: string, params: ordered sequence of value, id: identifier
    (string|number|null) }]. *)
Inductive Ident : Type :=
| IdNull
| IdNumber (n : Z)
| IdString (s : string).

Record RPCCall : Type := mkRPCCall {
  ID : Ident;
  Method : string;
  Params : list Value
}.

(** An identifier as a value. *)
Definition idValue (i : Ident) : Value :=
  match i with
  | IdNull => VNull
  | IdNumber n => VNumber n
  | IdString s => VString s
  end.

(** The zero value of [RPCCall]. *)
Definition zeroRPCCall : RPCCall := mkRPCCall IdNull EmptyString [].

(** [look req v]: the value [v] as someone reads it while the loop variable
    of [Send] holds [req]: the pointer [&req.ID] gives [req.ID]. *)
Fixpoint look (req : RPCCall) (v : Value) : Value :=
  match v with
  | VReqID => idValue (ID req)
  | VArray elems => VArray (List.map (look req) elems)
  | VObject props => VObject (List.map (fun p => (fst p, look req (snd p))) props)
  | _ => v
  end.

(** [newErrorResponse(msg, id)]: the error bundled into a JSON RPC call
    response.  The map holds [id] as it is given: [Send] gives the pointer
    [&req.ID]. *)
Definition newErrorResponse (msg : string) (id : Value) : Props :=
  [ ("jsonrpc", VString "2.0");
    ("id", id);
    ("error", VObject [ ("code", VNumber (-32603)); ("message", VString msg) ]) ].

(** [newErrorResponseOtto(vm, msg, id)]: [newErrorResponse] marshalled to
    JSON (a map's keys come out sorted) and evaluated by the engine as a
    parenthesised literal, which yields the object with these properties.
    [Send], its only caller, gives nil for [id]. *)
Definition newErrorResponseOtto (msg : string) (id : Value) : Value :=
  VObject [ ("error", VObject [ ("code", VNumber (-32603)); ("message", VString msg) ]);
            ("id", id);
            ("jsonrpc", VString "2.0") ].

(** How a call of the host function [Send] ends. *)
Inductive Outcome : Type :=
| Returned (v : Value)     (* the [otto.Value] it returns *)
| Thrown (msg : string)    (* [throwJSException]: a script exception with this text *)
| Panicked (msg : string). (* a Go runtime error *)

(* ===================================================================== *)
(** * Send *)
(* ===================================================================== *)

Section Dispatch.

(** The state the execution policy works on: the node, the accounts, the
    transaction queue and the cell's engine. *)
Variable W : Type.

(** [vm.Call("JSON.stringify", nil, call.Argument(0))] followed by
    [reqVal.String()]: the text, or the error of the call.  The engine
    looks [JSON.stringify] up in the cell's globals, which scripts may
    have rebound. *)
Variable stringify : W -> Value -> result error string.

(** [json.Unmarshal(rawReq, &reqs)] and [json.Unmarshal(rawReq, &reqs[0])]:
    the decoded calls, or the decoder's error text. *)
Variable unmarshalCalls : string -> result string (list RPCCall).
Variable unmarshalCall : string -> result string RPCCall.

(** [jail.policy.Execute(req, vm)]. *)
Variable Execute : RPCCall -> W -> result error Props * W.

(** How the request loop ends: it ran through all requests and holds the
    array [resps], its variable [req] holding what the last iteration
    assigned, or it returned early with a value. *)
Inductive LoopResult : Type :=
| Completed (resps : list Value) (req : RPCCall) (w : W)
| Stopped (v : Value) (w : W).

(** The loop [for _, req := range reqs], from the iteration that takes the
    first of [reqs]; [req] is the loop variable as the iterations before
    left it.  [resps] is the script array created by [new Array], to which
    [push] appends: the engine's [new Array], [push] and [Get] do on it
    what they do on an array, and do not fail.  The entry for a call that
    failed holds, for its id, the pointer [&req.ID] to the loop variable.
    The calls of [log.Info] are left out. *)
Fixpoint executeRequests (reqs : list RPCCall) (req : RPCCall) (w : W)
    (resps : list Value) : LoopResult :=
  match reqs with
  | [] => Completed resps req w
  | next :: reqs' =>
      let req := next in
      let '(r, w') := Execute req w in
      match r with
      | Err (StopRPCCallError msg) =>
          Stopped (newErrorResponseOtto msg VNull) w'
      | Err (OtherError msg) =>
          executeRequests reqs' req w' (resps ++ [VObject (newErrorResponse msg VReqID)])%list
      | Ok res =>
          executeRequests reqs' req w' (resps ++ [VObject res])%list
      end
  end.

(** The classification and decoding of the serialized request. *)
Inductive Decoded : Type :=
| DecPanic                                  (* [rawReq[0]] on an empty slice *)
| DecError (batch : bool) (err : string)    (* [json.Unmarshal] failed *)
| DecCalls (batch : bool) (reqs : list RPCCall).

Definition decodeRequest (rawReq : string) : Decoded :=
  match rawReq with
  | EmptyString => DecPanic
  | String c _ =>
      if Ascii.eqb c "[" then
        match unmarshalCalls rawReq with
        | Ok reqs => DecCalls true reqs
        | Err e => DecError true e
        end
      else
        match unmarshalCall rawReq with
        | Ok req => DecCalls false [req]
        | Err e => DecError false e
        end
  end.

(** The text of the exception thrown when decoding fails:
    [fmt.Errorf("can't unmarshal %v (batch=%v): %s", string(rawReq), batch, err)]. *)
Definition unmarshalErrorText (rawReq : string) (batch : bool) (err : string) : string :=
  "can't unmarshal " ++ rawReq ++ " (batch=" ++ fmt_bool batch ++ "): " ++ err.

(** [resps.Object().Get("0")]. *)
Definition Get0 (resps : list Value) : Value :=
  match resps with
  | [] => VUndefined
  | v :: _ => v
  end.

(** [Send(call, vm)], with [arg] for [call.Argument(0)].

    The entries pushed to [resps] are Go maps.  The engine does not copy a
    Go map it is handed: it wraps the map in a script object (otto's
    [newGoMapObject]), and a read of a member of that object looks the key
    up in the map and converts what it finds then ([goMapGetOwnProperty]),
    following a pointer to what it points to ([toValue]).  The script
    reads the response after [Send] has returned, when the loop variable
    holds what the loop left in it.  [Returned v] has the value as the
    script reads it: [look req] of what the loop built. *)
Definition Send (arg : Value) (w : W) : Outcome * W :=
  match stringify w arg with
  | Err err => (Thrown (Error err), w)
  | Ok rawReq =>
      match decodeRequest rawReq with
      | DecPanic => (Panicked "runtime error: index out of range", w)
      | DecError batch err => (Thrown (unmarshalErrorText rawReq batch err), w)
      | DecCalls batch reqs =>
          match executeRequests reqs zeroRPCCall w [] with
          | Stopped v w' => (Returned v, w')
          | Completed resps req w' =>
              if batch then (Returned (look req (VArray resps)), w')
              else (Returned (look req (Get0 resps)), w')
          end
      end
  end.

(** The policy answers none of [reqs], run in order from [w], with a
    [StopRPCCallError]. *)
Fixpoint noFatal (reqs : list RPCCall) (w : W) : bool :=
  match reqs with
  | [] => true
  | req :: reqs' =>
      match Execute req w with
      | (Err (StopRPCCallError _), _) => false
      | (_, w') => noFatal reqs' w'
      end
  end.

(** The state the policy leaves after executing [reqs] in order. *)
Fixpoint stateAfter (reqs : list RPCCall) (w : W) : W :=
  match reqs with
  | [] => w
  | req :: reqs' => stateAfter reqs' (snd (Execute req w))
  end.

(** The policy with a record of the calls it was given, in order. *)
Definition recording (req : RPCCall) (wl : W * list RPCCall)
  : result error Props * (W * list RPCCall) :=
  let '(r, w') := Execute req (fst wl) in (r, (w', (snd wl ++ [req])%list)).

End Dispatch.

Arguments Completed {W} resps req w.
Arguments Stopped {W} v w.

(** Modelled from the spec: [ExecutionPolicy.Execute], which
    [geth/jail/execution_policy.go] defines and the sources do not include.
    The specification has the policy return, for one RPC call, a result
    value or a classified error (fatal or recoverable), the response of a
    successful call being [{jsonrpc:"2.0", id: call.id, result: <value>}]. *)
Inductive Verdict : Type :=
| Success (v : Value)
| Recoverable (msg : string)
| Fatal (msg : string).

Definition policyExecute {W : Type} (backend : RPCCall -> W -> Verdict * W)
    (req : RPCCall) (w : W) : result error Props * W :=
  let '(verdict, w') := backend req w in
  match verdict with
  | Success v =>
      (Ok [ ("jsonrpc", VString "2.0"); ("id", idValue (ID req)); ("result", v) ], w')
  | Recoverable msg => (Err (OtherError msg), w')
  | Fatal msg => (Err (StopRPCCallError msg), w')
  end.

(* ===================================================================== *)
(** * The jail: cells, NewCell, Cell, Parse *)
(* ===================================================================== *)

Section Registry.

(** A cell: the state of its script engine. *)
Variable VM : Type.

(** [otto.New()]: a new engine. *)
Variable otto_New : VM.

(** [newCell(chatID, vm)], [cell.Set], [registerHandlers], [cell.Run] and
    [cell.Get] are declared outside the sources; each is taken with the
    effect it has on the cell's engine. *)
Variable newCell : string -> VM -> result error VM.
Variable cell_Set : string -> Value -> VM -> option error * VM.
Variable registerHandlers : string -> VM -> option error * VM.
Variable cell_Run : string -> VM -> result error Value * VM.
Variable cell_Get : string -> VM -> result error Value.

(** [cell.Call(name, nil, args...)]: the value and the error it returns. *)
Variable cell_Call : string -> list Value -> VM -> (Value * option error) * VM.

(** [otto.Value.String()]. *)
Variable Value_String : Value -> string.

(** [static.MustAsset("scripts/web3.js")]. *)
Variable web3JSCode : string.

(** The [Jail] struct, as far as [Parse] and the cell registry use it.  A
    nil [*Jail] is [None]. *)
Record Jail : Type := mkJail {
  cells : gmap string VM;
  baseJSCode : string
}.

(** [BaseJS(js)]. *)
Definition BaseJS (jail : Jail) (js : string) : Jail :=
  {| cells := cells jail; baseJSCode := js |}.

(** [NewCell(chatID)]. *)
Definition NewCell (jail : option Jail) (chatID : string)
  : result error VM * option Jail :=
  match jail with
  | None => (Err ErrInvalidJail, None)
  | Some j =>
      let vm := otto_New in
      match newCell chatID vm with
      | Err err => (Err err, Some j)
      | Ok cell =>
          (Ok cell,
           Some {| cells := <[chatID := cell]> (cells j);
                   baseJSCode := baseJSCode j |})
      end
  end.

(** [Cell(chatID)]. *)
Definition Cell (jail : Jail) (chatID : string) : result error VM :=
  match cells jail !! chatID with
  | Some cell => Ok cell
  | None => Err (OtherError ("cell[" ++ chatID ++ "] doesn't exist"))
  end.

Definition nl : string := String (ascii_of_nat 10) EmptyString.
Definition tab : string := String (ascii_of_nat 9) EmptyString.

(** The script [Parse] runs after the base code: web3.js, the bindings,
    the user's script and the catalog epilogue. *)
Definition jjs (js : string) : string :=
  web3JSCode
  ++ nl ++ tab ++ "var Web3 = require('web3');"
  ++ nl ++ tab ++ "var web3 = new Web3(jeth);"
  ++ nl ++ tab ++ "var Bignumber = require(" ++ String dquote "bignumber.js"
                  ++ String dquote ");"
  ++ nl ++ "        function bn(val){"
  ++ nl ++ "            return new Bignumber(val);"
  ++ nl ++ "        }"
  ++ nl ++ tab
  ++ js ++ "; var catalog = JSON.stringify(_status_catalog);".

(** The part of [Parse] that follows the lookup of the cell.  The cell is
    a pointer in Go, so every step works on the registered cell itself:
    the engine state a step leaves is the one the next step, and the
    registry, see. *)
Definition initCell (jail : Jail) (chatID js : string) (cell : VM) : string * VM :=
  (* init jeth and its handlers *)
  let '(err, cell) := cell_Set "jeth" (VObject []) cell in
  match err with
  | Some e => (makeError (Error e), cell)
  | None =>
      let '(err, cell) := registerHandlers chatID cell in
      match err with
      | Some e => (makeError (Error e), cell)
      | None =>
          let initJs := baseJSCode jail ++ ";" in
          let '(r, cell) := cell_Run initJs cell in
          match r with
          | Err e => (makeError (Error e), cell)
          | Ok _ =>
              let '(r, cell) := cell_Run (jjs js) cell in
              match r with
              | Err e => (makeError (Error e), cell)
              | Ok _ =>
                  match cell_Get "catalog" cell with
                  | Err e => (makeError (Error e), cell)
                  | Ok res => (makeResult (Value_String res) None, cell)
                  end
              end
          end
      end
  end.

(** Writing the engine state back under [chatID]: the in-place effect of
    the steps on the registered cell. *)
Definition withCell (jail : Jail) (chatID : string) (cell : VM) : Jail :=
  {| cells := <[chatID := cell]> (cells jail); baseJSCode := baseJSCode jail |}.

(** [Parse(chatID, js)]. *)
Definition Parse (jail : option Jail) (chatID js : string) : string * option Jail :=
  match jail with
  | None => (makeError (Error ErrInvalidJail), None)
  | Some j =>
      match Cell j chatID with
      | Ok cell =>
          let '(out, cell') := initCell j chatID js cell in
          (out, Some (withCell j chatID cell'))
      | Err _ =>
          match NewCell (Some j) chatID with
          | (Ok _, Some j') =>
              (* cell, _ = jail.Cell(chatID): the cell NewCell has stored *)
              match Cell j' chatID with
              | Ok cell =>
                  let '(out, cell') := initCell j' chatID js cell in
                  (out, Some (withCell j' chatID cell'))
              | Err e => (makeError (Error e), Some j')   (* not reached *)
              end
          | (Ok _, None) => (makeError (Error ErrInvalidJail), None)   (* not reached *)
          | (Err mkerr, j') => (makeError (Error mkerr), j')
          end
      end
  end.

(** [Call(chatID, this, args)]. *)
Definition Call (jail : Jail) (chatID this args : string) : string * Jail :=
  match Cell jail chatID with
  | Err err => (makeError (Error err), jail)
  | Ok cell =>
      let '((res, err), cell') := cell_Call "call" [VString this; VString args] cell in
      (makeResult (Value_String res) err, withCell jail chatID cell')
  end.

(** The steps of [Parse] that can fail once it holds the cell, each with
    the error it returns and the engine state it leaves. *)
Inductive InitFails (jail : Jail) (chatID js : string) (cell : VM)
  : error -> VM -> Prop :=
| fails_Set e c1 :
    cell_Set "jeth" (VObject []) cell = (Some e, c1) ->
    InitFails jail chatID js cell e c1
| fails_registerHandlers e c1 c2 :
    cell_Set "jeth" (VObject []) cell = (None, c1) ->
    registerHandlers chatID c1 = (Some e, c2) ->
    InitFails jail chatID js cell e c2
| fails_baseJS e c1 c2 c3 :
    cell_Set "jeth" (VObject []) cell = (None, c1) ->
    registerHandlers chatID c1 = (None, c2) ->
    cell_Run (baseJSCode jail ++ ";") c2 = (Err e, c3) ->
    InitFails jail chatID js cell e c3
| fails_script e c1 c2 c3 v c4 :
    cell_Set "jeth" (VObject []) cell = (None, c1) ->
    registerHandlers chatID c1 = (None, c2) ->
    cell_Run (baseJSCode jail ++ ";") c2 = (Ok v, c3) ->
    cell_Run (jjs js) c3 = (Err e, c4) ->
    InitFails jail chatID js cell e c4
| fails_catalog e c1 c2 c3 v c4 v' :
    cell_Set "jeth" (VObject []) cell = (None, c1) ->
    registerHandlers chatID c1 = (None, c2) ->
    cell_Run (baseJSCode jail ++ ";") c2 = (Ok v, c3) ->
    cell_Run (jjs js) c3 = (Ok v', c4) ->
    cell_Get "catalog" c4 = Err e ->
    InitFails jail chatID js cell e c4.

End Registry.

Arguments cells {VM} _.
Arguments baseJSCode {VM} _.
Arguments mkJail {VM} _ _.

(* ===================================================================== *)
(** * The script of rxsend_test.go: addContext and call *)
(* ===================================================================== *)

(** The global namespace of a cell's engine. *)
Abbreviation Globals := (gmap string Value).

(** Script exceptions are carried by their text. *)
Definition TypeError (what : string) : string := "TypeError: " ++ what.
Definition ReferenceError (name : string) : string :=
  "ReferenceError: '" ++ name ++ "' is not defined".

(** ToBoolean. *)
Definition truthy (v : Value) : bool :=
  match v with
  | VUndefined | VNull => false
  | VBool b => b
  | VNumber n => negb (Z.eqb n 0)
  | VString s => negb (String.eqb s EmptyString)
  | VArray _ | VObject _ | VFunction _ | VReqID => true
  end.

(** [base[key]]: a property read.  The values the script keeps in its
    catalog and context are objects; the own properties of arrays, strings
    and functions are not modelled and read as undefined. *)
Definition member (base : Value) (key : string) : result string Value :=
  match base with
  | VUndefined | VNull => Err (TypeError "cannot access member of undefined")
  | VObject ps => Ok (default VUndefined (assoc key ps))
  | _ => Ok VUndefined
  end.

(** [ps[k] = v] on the properties of an object. *)
Fixpoint setProp (k : string) (v : Value) (ps : Props) : Props :=
  match ps with
  | [] => [(k, v)]
  | (k', v') :: ps' =>
      if String.eqb k k' then (k, v) :: ps' else (k', v') :: setProp k v ps'
  end.

(** Reading a global variable. *)
Definition global (name : string) (g : Globals) : result string Value :=
  match g !! name with
  | Some v => Ok v
  | None => Err (ReferenceError name)
  end.

(** [function addContext(ns, key, value)]:
    [if (!(ns in context)) context[ns] = {}; context[ns][key] = value].
    A write to a member of a number, string or boolean does nothing; the
    members a script may give to an array or a function are not modelled. *)
Definition addContext (ns key : string) (value : Value) (g : Globals)
  : result string unit * Globals :=
  match global "context" g with
  | Err e => (Err e, g)
  | Ok (VObject ctx) =>
      let ctx := match assoc ns ctx with
                 | Some _ => ctx
                 | None => setProp ns (VObject []) ctx
                 end in
      let g := <["context" := VObject ctx]> g in
      match default VUndefined (assoc ns ctx) with
      | VObject ps =>
          (Ok tt, <["context" := VObject (setProp ns (VObject (setProp key value ps)) ctx)]> g)
      | VUndefined | VNull => (Err (TypeError "cannot set property of undefined"), g)
      | _ => (Ok tt, g)
      end
  | Ok _ => (Err (TypeError "invalid 'in' operand"), g)
  end.

Section Script.

(** The engine's [JSON.parse] (an [Err] is the exception it throws),
    [JSON.stringify] and conversion of a value to a property key. *)
Variable JSON_parse : string -> result string Value.
Variable JSON_stringify : Value -> Value.
Variable ToPropertyKey : Value -> string.

(** The call [f(params)] of the script function named [f]: the value it
    returns or the exception it throws, and the globals it leaves.  The
    host functions such a function reaches ([addContext] among them)
    work on the same globals. *)
Variable apply : string -> Value -> Globals -> result string Value * Globals.

(** The callback of [path.reduce]:
    [if (catalog && catalog[name]) return catalog[name]]. *)
Definition descend (catalog name : Value) : Value :=
  if truthy catalog then
    match member catalog (ToPropertyKey name) with
    | Ok v => if truthy v then v else VUndefined
    | Err _ => VUndefined
    end
  else VUndefined.

(** [function call(pathStr, paramsStr)]. *)
Definition call (pathStr paramsStr : string) (g : Globals)
  : result string Value * Globals :=
  match JSON_parse paramsStr with
  | Err e => (Err e, g)
  | Ok params =>
  match JSON_parse pathStr with
  | Err e => (Err e, g)
  | Ok path =>
      (* context = {}; *)
      let g := <["context" := VObject []]> g in
      match path with
      | VUndefined | VNull => (Err (TypeError "cannot access member of undefined"), g)
      | VArray names =>
          match global "_status_catalog" g with
          | Err e => (Err e, g)
          | Ok catalog =>
              let fn := fold_left descend names catalog in
              if negb (truthy fn) then (Ok VNull, g)
              else
                match fn with
                | VFunction f =>
                    (* callResult = fn(params); *)
                    let '(r, g) := apply f params g in
                    match r with
                    | Err e => (Err e, g)
                    | Ok callResult =>
                        let g := <["callResult" := callResult]> g in
                        (* res = { result: callResult, context: context[status.message_id] } *)
                        match global "context" g with
                        | Err e => (Err e, g)
                        | Ok context =>
                        match global "status" g with
                        | Err e => (Err e, g)
                        | Ok status =>
                        match member status "message_id" with
                        | Err e => (Err e, g)
                        | Ok message_id =>
                        match member context (ToPropertyKey message_id) with
                        | Err e => (Err e, g)
                        | Ok ctx =>
                            let res := VObject [("result", callResult); ("context", ctx)] in
                            (Ok (JSON_stringify res), g)
                        end end end end
                    end
                | _ => (Err (TypeError "fn is not a function"), g)
                end
          end
      | _ =>
          match global "_status_catalog" g with
          | Err e => (Err e, g)
          | Ok _ => (Err (TypeError "path.reduce is not a function"), g)
          end
      end
  end end.

End Script.

(* ===================================================================== *)
(** * Test doubles: an engine, a JSON reader and execution policies *)
(* ===================================================================== *)

Module Fixture.

(** ** The engine's serializer *)

Definition decimal (n : Z) : string := NilZero.string_of_int (Z.to_int n).

Definition js_escape_byte (c : ascii) : string :=
  let n := nat_of_ascii c in
  if Ascii.eqb c dquote || Ascii.eqb c backslash then
    String backslash (String c EmptyString)
  else if Nat.eqb n 8 then String backslash "b"
  else if Nat.eqb n 9 then String backslash "t"
  else if Nat.eqb n 10 then String backslash "n"
  else if Nat.eqb n 12 then String backslash "f"
  else if Nat.eqb n 13 then String backslash "r"
  else if Nat.ltb n 32 then
    String backslash ("u00" ++ String (Json.hexdigit (n / 16))
                                (String (Json.hexdigit (n mod 16)) EmptyString))
  else String c EmptyString.

Fixpoint js_escape (s : string) : string :=
  match s with
  | EmptyString => EmptyString
  | String c s' => js_escape_byte c ++ js_escape s'
  end.

Definition js_quote (s : string) : string :=
  String dquote (js_escape s ++ String dquote EmptyString).

(** The text [JSON.stringify] gives for a value; none for undefined and
    for functions, which an array shows as null and an object leaves out. *)
Fixpoint serialize (v : Value) : option string :=
  match v with
  | VUndefined | VFunction _ | VReqID => None
  | VNull => Some "null"
  | VBool b => Some (fmt_bool b)
  | VNumber n => Some (decimal n)
  | VString s => Some (js_quote s)
  | VArray elems =>
      Some ("[" ++ String.concat ","
                     (List.map (fun x => default "null" (serialize x)) elems)
                ++ "]")
  | VObject props =>
      Some ("{" ++ String.concat ","
                     (List.flat_map
                        (fun p => match serialize (snd p) with
                                  | Some t => [js_quote (fst p) ++ ":" ++ t]
                                  | None => []
                                  end) props)
                ++ "}")
  end.

(** [JSON.stringify(v)] as a script value. *)
Definition JSON_stringify (v : Value) : Value :=
  match serialize v with
  | Some t => VString t
  | None => VUndefined
  end.

(** [otto.Value.String()] on the primitive values. *)
Definition ValueString (v : Value) : string :=
  match v with
  | VUndefined => "undefined"
  | VNull => "null"
  | VBool b => fmt_bool b
  | VNumber n => decimal n
  | VString s => s
  | VArray _ | VObject _ | VFunction _ | VReqID => "[object Object]"
  end.

(** The engine's own [JSON.stringify] as [Send] calls it. *)
Definition stringify {W : Type} (_ : W) (arg : Value) : result error string :=
  Ok (ValueString (JSON_stringify arg)).

(** A cell whose script has rebound [JSON.stringify] to a function that
    returns the empty string. *)
Definition stringify_rebound {W : Type} (_ : W) (_ : Value) : result error string :=
  Ok EmptyString.

(** ** A reader for JSON texts *)

Definition is_ws (c : ascii) : bool :=
  let n := nat_of_ascii c in
  Nat.eqb n 32 || Nat.eqb n 9 || Nat.eqb n 10 || Nat.eqb n 13.

Fixpoint skip_ws (s : string) : string :=
  match s with
  | String c s' => if is_ws c then skip_ws s' else s
  | EmptyString => s
  end.

Fixpoint drop (n : nat) (s : string) : string :=
  match n, s with
  | S n', String _ s' => drop n' s'
  | _, _ => s
  end.

Definition unescape (c : ascii) : option ascii :=
  if Ascii.eqb c dquote || Ascii.eqb c backslash || Ascii.eqb c "/" then Some c
  else if Ascii.eqb c "n" then Some (ascii_of_nat 10)
  else if Ascii.eqb c "t" then Some (ascii_of_nat 9)
  else if Ascii.eqb c "r" then Some (ascii_of_nat 13)
  else if Ascii.eqb c "b" then Some (ascii_of_nat 8)
  else if Ascii.eqb c "f" then Some (ascii_of_nat 12)
  else None.

(** The rest of a string literal after its opening quote. *)
Fixpoint read_string (s : string) : option (string * string) :=
  match s with
  | EmptyString => None
  | String c s' =>
      if Ascii.eqb c dquote then Some (EmptyString, s')
      else if Ascii.eqb c backslash then
        match s' with
        | String e s'' =>
            match unescape e, read_string s'' with
            | Some ch, Some (t, r) => Some (String ch t, r)
            | _, _ => None
            end
        | EmptyString => None
        end
      else
        match read_string s' with
        | Some (t, r) => Some (String c t, r)
        | None => None
        end
  end.

Definition digit (c : ascii) : option Z :=
  let n := nat_of_ascii c in
  if Nat.leb 48 n && Nat.leb n 57 then Some (Z.of_nat (n - 48)) else None.

Fixpoint read_digits (acc : Z) (s : string) : Z * string :=
  match s with
  | String c s' =>
      match digit c with
      | Some d => read_digits (acc * 10 + d) s'
      | None => (acc, s)
      end
  | EmptyString => (acc, s)
  end.

Definition read_number (s : string) : option (Z * string) :=
  match s with
  | String c s' =>
      if Ascii.eqb c "-" then
        match s' with
        | String d _ =>
            match digit d with
            | Some _ => let '(n, r) := read_digits 0 s' in Some ((- n)%Z, r)
            | None => None
            end
        | EmptyString => None
        end
      else
        match digit c with
        | Some _ => Some (read_digits 0 s)
        | None => None
        end
  | EmptyString => None
  end.

Fixpoint read_value (fuel : nat) (s : string) : option (Value * string) :=
  match fuel with
  | 0 => None
  | S fuel' =>
      let elems :=
        fix elems (n : nat) (s : string) : option (list Value * string) :=
          match n with
          | 0 => None
          | S n' =>
              match read_value fuel' s with
              | None => None
              | Some (v, r) =>
                  match skip_ws r with
                  | String c r' =>
                      if Ascii.eqb c "," then
                        match elems n' r' with
                        | Some (vs, r'') => Some (v :: vs, r'')
                        | None => None
                        end
                      else if Ascii.eqb c "]" then Some ([v], r')
                      else None
                  | EmptyString => None
                  end
              end
          end in
      let members :=
        fix members (n : nat) (s : string) : option (Props * string) :=
          match n with
          | 0 => None
          | S n' =>
              match skip_ws s with
              | String q s1 =>
                  if Ascii.eqb q dquote then
                    match read_string s1 with
                    | None => None
                    | Some (k, s2) =>
                        match skip_ws s2 with
                        | String colon s3 =>
                            if Ascii.eqb colon ":" then
                              match read_value fuel' s3 with
                              | None => None
                              | Some (v, r) =>
                                  match skip_ws r with
                                  | String c r' =>
                                      if Ascii.eqb c "," then
                                        match members n' r' with
                                        | Some (ps, r'') => Some ((k, v) :: ps, r'')
                                        | None => None
                                        end
                                      else if Ascii.eqb c "}" then Some ([(k, v)], r')
                                      else None
                                  | EmptyString => None
                                  end
                              end
                            else None
                        | EmptyString => None
                        end
                    end
                  else None
              | EmptyString => None
              end
          end in
      let s := skip_ws s in
      match s with
      | EmptyString => None
      | String c r =>
          if Ascii.eqb c "[" then
            match skip_ws r with
            | String c' r' =>
                if Ascii.eqb c' "]" then Some (VArray [], r')
                else match elems (String.length r) r with
                     | Some (vs, r'') => Some (VArray vs, r'')
                     | None => None
                     end
            | EmptyString => None
            end
          else if Ascii.eqb c "{" then
            match skip_ws r with
            | String c' r' =>
                if Ascii.eqb c' "}" then Some (VObject [], r')
                else match members (String.length r) r with
                     | Some (ps, r'') => Some (VObject ps, r'')
                     | None => None
                     end
            | EmptyString => None
            end
          else if Ascii.eqb c dquote then
            match read_string r with
            | Some (t, r') => Some (VString t, r')
            | None => None
            end
          else if String.prefix "null" s then Some (VNull, drop 4 s)
          else if String.prefix "true" s then Some (VBool true, drop 4 s)
          else if String.prefix "false" s then Some (VBool false, drop 5 s)
          else
            match read_number s with
            | Some (n, r') => Some (VNumber n, r')
            | None => None
            end
      end
  end.

(** A whole text as one JSON value. *)
Definition parse (s : string) : result string Value :=
  match read_value (S (String.length s)) s with
  | Some (v, r) =>
      match skip_ws r with
      | EmptyString => Ok v
      | String _ _ => Err "invalid character after top-level value"
      end
  | None => Err "invalid character looking for beginning of value"
  end.

(** ** Decoding into RPCCall, as [json.Unmarshal] fills the struct *)

Definition lower (c : ascii) : ascii :=
  let n := nat_of_ascii c in
  if Nat.leb 65 n && Nat.leb n 90 then ascii_of_nat (n + 32) else c.

Fixpoint lowercase (s : string) : string :=
  match s with
  | EmptyString => EmptyString
  | String c s' => String (lower c) (lowercase s')
  end.

(** The value under the key that matches a field name, letter case
    aside. *)
Fixpoint member_ci (name : string) (ps : Props) : option Value :=
  match ps with
  | [] => None
  | (k, v) :: ps' =>
      if String.eqb (lowercase k) name then Some v else member_ci name ps'
  end.

Definition type_error (what : string) : string :=
  "json: cannot unmarshal " ++ what ++ " into Go value of type common.RPCCall".

Definition decodeCall (v : Value) : result string RPCCall :=
  match v with
  | VNull => Ok zeroRPCCall
  | VObject ps =>
      match
        match member_ci "method" ps with
        | None | Some VNull => Ok EmptyString
        | Some (VString m) => Ok m
        | Some _ => Err (type_error "method")
        end,
        match member_ci "params" ps with
        | None | Some VNull => Ok []
        | Some (VArray l) => Ok l
        | Some _ => Err (type_error "params")
        end,
        match member_ci "id" ps with
        | None | Some VNull => Ok IdNull
        | Some (VNumber n) => Ok (IdNumber n)
        | Some (VString t) => Ok (IdString t)
        | Some _ => Err (type_error "id")
        end
      with
      | Ok m, Ok p, Ok i => Ok (mkRPCCall i m p)
      | Err e, _, _ | _, Err e, _ | _, _, Err e => Err e
      end
  | _ => Err (type_error "value")
  end.

Fixpoint decodeCalls (vs : list Value) : result string (list RPCCall) :=
  match vs with
  | [] => Ok []
  | v :: vs' =>
      match decodeCall v, decodeCalls vs' with
      | Ok c, Ok cs => Ok (c :: cs)
      | Err e, _ | _, Err e => Err e
      end
  end.

Definition unmarshalCall (raw : string) : result string RPCCall :=
  match parse raw with
  | Ok v => decodeCall v
  | Err e => Err e
  end.

Definition unmarshalCalls (raw : string) : result string (list RPCCall) :=
  match parse raw with
  | Ok (VArray vs) => decodeCalls vs
  | Ok VNull => Ok []
  | Ok _ => Err (type_error "value")
  | Err e => Err e
  end.

(** ** An execution policy's backend *)

(** A backend that counts the calls it gets: [stop] is fatal, [bad]
    fails, and any other method answers [params[0]+params[1]] (null
    without two numbers). *)
Definition backend (req : RPCCall) (calls : nat) : Verdict * nat :=
  (if String.eqb (Method req) "stop" then Fatal "transaction discarded"
   else if String.eqb (Method req) "bad" then Recoverable "boom"
   else match Params req with
        | VNumber a :: VNumber b :: _ => Success (VNumber (a + b))
        | _ => Success VNull
        end,
   S calls).

(** The policy of the specification over this backend. *)
Definition Execute : RPCCall -> nat -> result error Props * nat :=
  policyExecute backend.

Definition rpc (method : string) (params : list Value) (id : Z) : Value :=
  VObject [ ("method", VString method); ("params", VArray params);
            ("id", VNumber id) ].

(** The call it decodes to. *)
Definition rpc_call (method : string) (params : list Value) (id : Z) : RPCCall :=
  mkRPCCall (IdNumber id) method params.

(** The request [{"method":"foo","params":[1,2],"id":7}]. *)
Definition single_foo : Value := rpc "foo" [VNumber 1; VNumber 2] 7.

(** A batch of a good and a failing call. *)
Definition batch_bad : Value := VArray [ rpc "a" [] 1; rpc "bad" [] 2 ].

(** A batch whose second call is fatal. *)
Definition batch_stop : Value :=
  VArray [ rpc "a" [] 1; rpc "stop" [] 2; rpc "bad" [] 3 ].

(** A batch of a failing and a good call. *)
Definition batch_bad_good : Value := VArray [ rpc "bad" [] 1; rpc "a" [] 2 ].

(** A batch whose first call fails, with two calls after it. *)
Definition batch_bad_first : Value :=
  VArray [ rpc "bad" [] 1; rpc "a" [VNumber 2; VNumber 3] 2; rpc "b" [] 3 ].

(** [Send] on these doubles. *)
Definition send (arg : Value) (calls : nat) : Outcome * nat :=
  Send nat stringify unmarshalCalls unmarshalCall Execute arg calls.

(** ** A cell engine for Parse *)

(** The engine state is the list of what the cell has run so far; a
    script with [throw] in it runs and then fails. *)
Definition otto_New : list string := [].

Definition newCell (chatID : string) (vm : list string) : result error (list string) :=
  Ok vm.

Definition cell_Set (name : string) (_ : Value) (vm : list string)
  : option error * list string :=
  (None, (vm ++ [("set " ++ name)%string])%list).

Definition registerHandlers (chatID : string) (vm : list string)
  : option error * list string :=
  (None, (vm ++ [("handlers " ++ chatID)%string])%list).

Definition cell_Run (src : string) (vm : list string)
  : result error Value * list string :=
  (if isInfixOf "throw" src then Err (OtherError "Error: thrown by the script")
   else Ok VUndefined,
   (vm ++ [("run " ++ src)%string])%list).

Definition cell_Get (name : string) (vm : list string) : result error Value :=
  Ok (VString "{}").

Definition cell_Call (name : string) (args : list Value) (vm : list string)
  : (Value * option error) * list string :=
  ((VUndefined, Some (OtherError "TypeError: 'call' is not a function")), vm).

Definition web3JSCode : string := "/* web3.js */".

(** [Parse] and [NewCell] on this engine. *)
Definition parse_script (jail : Jail (list string)) (chatID js : string)
  : string * option (Jail (list string)) :=
  Parse (list string) otto_New newCell cell_Set registerHandlers cell_Run
        cell_Get ValueString web3JSCode (Some jail) chatID js.

Definition new_cell (jail : Jail (list string)) (chatID : string)
  : result error (list string) * option (Jail (list string)) :=
  NewCell (list string) otto_New newCell (Some jail) chatID.

(** A jail with nothing registered, and one whose cell for [chat] has
    run a script. *)
Definition jail0 : Jail (list string) := mkJail ∅ "var base = 1".

Definition jail1 : Jail (list string) :=
  mkJail (<["chat" := ["run var answer = 42"]]> ∅) "var base = 1".

(** ** Script functions for call *)

(** [remember] stores its argument in the global [seen], [recall] returns
    that global, [tag] calls [addContext] under the message id 42 and
    [context] returns the global [context]. *)
Definition apply (f : string) (params : Value) (g : Globals)
  : result string Value * Globals :=
  if String.eqb f "remember" then (Ok VUndefined, <["seen" := params]> g)
  else if String.eqb f "recall" then (Ok (default VUndefined (g !! "seen")), g)
  else if String.eqb f "tag" then
    let '(r, g') := addContext "42" "tag" params g in
    (match r with Ok _ => Ok (VBool true) | Err e => Err e end, g')
  else if String.eqb f "context" then (Ok (default VUndefined (g !! "context")), g)
  else (Err (ReferenceError f), g).

(** The globals the script of the test file defines, with the functions
    above in the catalog. *)
Definition globals0 : Globals :=
  <["status" := VObject [("message_id", VString "42")]]>
  (<["_status_catalog" :=
       VObject [ ("commands",
                  VObject [ ("remember", VFunction "remember");
                            ("recall", VFunction "recall");
                            ("tag", VFunction "tag");
                            ("context", VFunction "context") ]);
                 ("responses", VObject []) ]]>
  (<["context" := VObject []]> ∅)).

(** One cycle of the script on these doubles. *)
Definition cycle (pathStr paramsStr : string) (g : Globals)
  : result string Value * Globals :=
  call parse JSON_stringify ValueString apply pathStr paramsStr g.

End Fixture.

(* ===================================================================== *)
(** * Vocabulary of the statements *)
(* ===================================================================== *)

(** A byte the JSON string encoder copies as it is, whatever stands
    around it: one from 0x20 and below 0x80 that is no quote, no backslash
    and none of [<], [>], [&]. *)
Definition plain_byte (c : ascii) : bool :=
  negb (Nat.ltb (nat_of_ascii c) 32)
  && negb (Ascii.eqb c dquote) && negb (Ascii.eqb c backslash)
  && negb (Ascii.eqb c "<") && negb (Ascii.eqb c ">") && negb (Ascii.eqb c "&")
  && Nat.ltb (nat_of_ascii c) 128.

(** A text made of such bytes only. *)
Fixpoint plain (s : string) : bool :=
  match s with
  | EmptyString => true
  | String c s' => plain_byte c && plain s'
  end.

Definition isArray (v : Value) : bool :=
  match v with VArray _ => true | _ => false end.

Definition isObject (v : Value) : bool :=
  match v with VObject _ => true | _ => false end.

(** The first byte of a text is [c]. *)
Definition startsWith (c : ascii) (s : string) : bool :=
  match s with
  | String c' _ => Ascii.eqb c' c
  | EmptyString => false
  end.

(** The outermost token of a JSON text, as a JSON scanner finds it after
    the white space before it: the bracket that opens an array, the brace
    that opens an object, or something else. *)
Inductive Token : Type :=
| ArrayOpen
| ObjectOpen
| OtherToken
| NoToken.

Fixpoint outermostToken (s : string) : Token :=
  match s with
  | EmptyString => NoToken
  | String c s' =>
      if Fixture.is_ws c then outermostToken s'
      else if Ascii.eqb c "[" then ArrayOpen
      else if Ascii.eqb c "{" then ObjectOpen
      else OtherToken
  end.

(** The first byte of a text is white space.  [JSON.stringify] writes no
    text that starts so. *)
Definition startsWithSpace (s : string) : bool :=
  match s with
  | String c _ => Fixture.is_ws c
  | EmptyString => false
  end.

Section DispatchVocabulary.

Variable W : Type.
Variable Execute : RPCCall -> W -> result error Props * W.

(** The entry [Send] pushes for a call the policy answered with [r],
    when [r] does not stop the batch. *)
Definition response (r : result error Props) : Value :=
  match r with
  | Ok res => VObject res
  | Err e => VObject (newErrorResponse (Error e) VReqID)
  end.

(** The entries for [reqs], the policy running them in order from [w]. *)
Fixpoint responses (reqs : list RPCCall) (w : W) : list Value :=
  match reqs with
  | [] => []
  | req :: reqs' =>
      let '(r, w') := Execute req w in
      response r :: responses reqs' w'
  end.

(** [Send] over the recording policy, started with the record [log]. *)
Definition SendRecorded
    (stringify : W -> Value -> result error string)
    (unmarshalCalls : string -> result string (list RPCCall))
    (unmarshalCall : string -> result string RPCCall)
    (arg : Value) (w : W) (log : list RPCCall)
  : Outcome * (W * list RPCCall) :=
  Send (W * list RPCCall) (fun wl => stringify (fst wl))
       unmarshalCalls unmarshalCall (recording W Execute) arg (w, log).

(** The calls of [reqs] that reach the policy: all up to and including
    the first one it answers with a [StopRPCCallError]. *)
Fixpoint executed (reqs : list RPCCall) (w : W) : list RPCCall :=
  match reqs with
  | [] => []
  | req :: reqs' =>
      req :: match Execute req w with
             | (Err (StopRPCCallError _), _) => []
             | (_, w') => executed reqs' w'
             end
  end.

End DispatchVocabulary.

(* ===================================================================== *)
(** * New, and the vocabulary of further statements *)
(* ===================================================================== *)

(** [New(nodeManager, accountManager, txQueueManager)]: a dependency that
    is nil is [None], and the panic is carried by its text.  The managers
    and the execution policy made from them are no fields of [Jail] here:
    the policy is what [Send] takes as [Execute]. *)
Definition New (VM N A T : Type) (nodeManager : option N)
    (accountManager : option A) (txQueueManager : option T)
  : result string (Jail VM) :=
  match nodeManager, accountManager, txQueueManager with
  | Some _, Some _, Some _ => Ok (mkJail ∅ EmptyString)
  | _, _, _ => Err "Jail is missing mandatory dependencies"
  end.

(** A text of bytes below 0x80. *)
Fixpoint ascii_only (s : string) : bool :=
  match s with
  | EmptyString => true
  | String c s' => Nat.ltb (nat_of_ascii c) 128 && ascii_only s'
  end.

(** The value of a hexadecimal digit. *)
Definition hexval (c : ascii) : option nat :=
  let n := nat_of_ascii c in
  if Nat.leb 48 n && Nat.leb n 57 then Some (n - 48)
  else if Nat.leb 97 n && Nat.leb n 102 then Some (n - 87)
  else None.

(** Reading back the body of a JSON string with the escapes that
    [Json.escape] writes: a backslash before a quote or a backslash, the
    letters n, r and t, and [u00] with two hexadecimal digits.  A quote
    or a control byte that stands there as it is ends or breaks the
    string: such a text is no body. *)
Fixpoint unescape (s : string) : option string :=
  match s with
  | EmptyString => Some EmptyString
  | String c s1 =>
      if Ascii.eqb c backslash then
        match s1 with
        | String e s2 =>
            if Ascii.eqb e "u" then
              match s2 with
              | String z1 (String z2 (String h (String l s3))) =>
                  if Ascii.eqb z1 "0" && Ascii.eqb z2 "0" then
                    match hexval h, hexval l, unescape s3 with
                    | Some a, Some b, Some t =>
                        Some (String (ascii_of_nat (16 * a + b)) t)
                    | _, _, _ => None
                    end
                  else None
              | _ => None
              end
            else
              match (if Ascii.eqb e "n" then Some (ascii_of_nat 10)
                     else if Ascii.eqb e "r" then Some (ascii_of_nat 13)
                     else if Ascii.eqb e "t" then Some (ascii_of_nat 9)
                     else if Ascii.eqb e dquote || Ascii.eqb e backslash
                     then Some e else None),
                    unescape s2 with
              | Some ch, Some t => Some (String ch t)
              | _, _ => None
              end
        | EmptyString => None
        end
      else if Ascii.eqb c dquote || Nat.ltb (nat_of_ascii c) 32 then None
      else
        match unescape s1 with
        | Some t => Some (String c t)
        | None => None
        end
  end.

(** A [newCell] that fails, for the statements on that case. *)
Definition newCell_failing (chatID : string) (vm : list string)
  : result error (list string) :=
  Err (OtherError "no engine").

(** The values that are no objects: undefined, null, booleans, numbers and
    strings. *)
Definition isPrimitive (v : Value) : bool :=
  match v with
  | VUndefined | VNull | VBool _ | VNumber _ | VString _ => true
  | _ => false
  end.

(** The names every script object has from [Object.prototype]: [member],
    [assoc] and [setProp] look at the properties an object has of its own,
    so the statements on them leave these names out. *)
Definition objectPrototypeName (name : string) : bool :=
  existsb (String.eqb name)
    [ "constructor"; "toString"; "toLocaleString"; "valueOf";
      "hasOwnProperty"; "isPrototypeOf"; "propertyIsEnumerable" ].

(** [makeResult]'s replacement of the text [undefined]. *)
Definition normalized (res : string) : string :=
  if String.eqb "undefined" res then "null" else res.

(* ===================================================================== *)
(** * Properties of the envelopes *)
(* ===================================================================== *)

Lemma append_cons c s t : String c s ++ t = String c (s ++ t).
Proof. reflexivity. Qed.

Lemma append_nil_l t : EmptyString ++ t = t.
Proof. reflexivity. Qed.

Lemma append_assoc s t u : (s ++ t) ++ u = s ++ (t ++ u).
Proof.
  induction s as [|c s IH]; [reflexivity|].
  rewrite !append_cons, IH. reflexivity.
Qed.

(** Evaluates the closed [lit] texts of a goal and brings appends to a
    right-nested form. *)
Ltac eval_lit :=
  repeat match goal with
         | |- context [lit ?s] =>
             let v := eval vm_compute in (lit s) in change (lit s) with v
         end.

Ltac norm_append :=
  eval_lit;
  repeat first [rewrite append_assoc | rewrite append_cons | rewrite append_nil_l].

Lemma escape_byte_plain c :
  plain_byte c = true -> Json.escape_byte c = String c EmptyString.
Proof.
  unfold plain_byte, Json.escape_byte. intros H.
  repeat (apply andb_prop in H; destruct H as [H ?]).
  repeat match goal with
         | Hn : negb _ = true |- _ => apply negb_true_iff in Hn
         end.
  destruct (Ascii.eqb c dquote); [discriminate|].
  destruct (Ascii.eqb c backslash); [discriminate|]. simpl.
  destruct (Nat.ltb (nat_of_ascii c) 32) eqn:Hlt; [discriminate|].
  apply Nat.ltb_ge in Hlt.
  destruct (Nat.eqb_spec (nat_of_ascii c) 10); [lia|].
  destruct (Nat.eqb_spec (nat_of_ascii c) 13); [lia|].
  destruct (Nat.eqb_spec (nat_of_ascii c) 9); [lia|].
  destruct (Ascii.eqb c "<"); [discriminate|].
  destruct (Ascii.eqb c ">"); [discriminate|].
  destruct (Ascii.eqb c "&"); [discriminate|].
  reflexivity.
Qed.

Lemma escape_plain s : plain s = true -> Json.escape s = s.
Proof.
  induction s as [|c s IH]; simpl; [reflexivity|].
  intros H. apply andb_prop in H as [Hc Hs].
  rewrite (escape_byte_plain c Hc), (IH Hs). reflexivity.
Qed.

Lemma quote_plain s :
  plain s = true -> Json.quote s = String dquote (s ++ String dquote EmptyString).
Proof. intros H. unfold Json.quote. rewrite (escape_plain s H). reflexivity. Qed.

(* ===================================================================== *)
(** * Properties of the request loop *)
(* ===================================================================== *)

Section LoopProperties.

Variable W : Type.
Variable Execute : RPCCall -> W -> result error Props * W.

Lemma executeRequests_app pre post req w resps :
  executeRequests W Execute (pre ++ post) req w resps =
  match executeRequests W Execute pre req w resps with
  | Completed r req' w' => executeRequests W Execute post req' w' r
  | Stopped v w' => Stopped v w'
  end.
Proof.
  revert req w resps. induction pre as [|next pre IH]; intros req w resps; simpl.
  - reflexivity.
  - destruct (Execute next w) as [[res|[msg|msg]] w1]; auto.
Qed.

(** Without a fatal answer the loop runs through: one entry per call, in
    the order of the calls, after the entries it started with; its
    variable holds the last call. *)
Lemma executeRequests_noFatal reqs req w resps :
  noFatal W Execute reqs w = true ->
  executeRequests W Execute reqs req w resps =
  Completed (resps ++ responses W Execute reqs w) (List.last reqs req)
            (stateAfter W Execute reqs w).
Proof.
  revert req w resps.
  induction reqs as [|next reqs IH]; intros req w resps H.
  - simpl. rewrite app_nil_r. reflexivity.
  - cbn [executeRequests noFatal responses stateAfter] in *.
    replace (List.last (next :: reqs) req) with (List.last reqs next)
      by (clear; revert next; induction reqs; intros; simpl in *; auto;
          destruct reqs; auto).
    destruct (Execute next w) as [[res|[msg|msg]] w1]; simpl;
      try discriminate; rewrite (IH _ _ _ H), <- app_assoc; reflexivity.
Qed.

Lemma responses_length reqs w :
  length (responses W Execute reqs w) = length reqs.
Proof.
  revert w. induction reqs as [|req reqs IH]; intros w; simpl; [reflexivity|].
  destruct (Execute req w) as [r w1]. simpl. rewrite IH. reflexivity.
Qed.

Lemma executed_app pre post w :
  noFatal W Execute pre w = true ->
  executed W Execute (pre ++ post) w =
  (pre ++ executed W Execute post (stateAfter W Execute pre w))%list.
Proof.
  revert w. induction pre as [|req pre IH]; intros w H; simpl; [reflexivity|].
  simpl in H. destruct (Execute req w) as [[res|[msg|msg]] w1]; simpl;
    try discriminate; rewrite (IH _ H); reflexivity.
Qed.

(** The recording policy answers as the policy does and adds to its
    record exactly the calls that reach it. *)
Lemma executeRequests_recording reqs req w log resps :
  executeRequests (W * list RPCCall) (recording W Execute) reqs req (w, log) resps =
  match executeRequests W Execute reqs req w resps with
  | Completed r req' w' =>
      Completed r req' (w', (log ++ executed W Execute reqs w)%list)
  | Stopped v w' => Stopped v (w', (log ++ executed W Execute reqs w)%list)
  end.
Proof.
  revert req w log resps.
  induction reqs as [|next reqs IH]; intros req w log resps; simpl.
  - rewrite app_nil_r. reflexivity.
  - unfold recording at 1. simpl.
    destruct (Execute next w) as [[res|[msg|msg]] w1]; simpl;
      try rewrite IH; rewrite <- ?app_assoc; reflexivity.
Qed.

Lemma responses_lookup reqs w k req :
  reqs !! k = Some req ->
  responses W Execute reqs w !! k =
  Some (response (fst (Execute req (stateAfter W Execute (take k reqs) w)))).
Proof.
  revert w k. induction reqs as [|r reqs IH]; intros w k H; [discriminate|].
  destruct k as [|k]; simpl in *.
  - injection H as ->. destruct (Execute req w); reflexivity.
  - destruct (Execute r w) as [r0 w1]. simpl. apply IH, H.
Qed.

(** Reading puts the identifier of the loop variable where the pointer is;
    an identifier reads as itself. *)
Lemma look_idValue req i : look req (idValue i) = idValue i.
Proof. destruct i; reflexivity. Qed.

Lemma look_error_entry req msg :
  look req (VObject (newErrorResponse msg VReqID))
  = VObject (newErrorResponse msg (idValue (ID req))).
Proof. reflexivity. Qed.

Lemma look_lookup req (resps : list Value) k :
  List.map (look req) resps !! k = look req <$> resps !! k.
Proof. apply list_lookup_fmap. Qed.

End LoopProperties.

(* ===================================================================== *)
(** * Properties of texts *)
(* ===================================================================== *)

Lemma prefix_append p s : String.prefix p (p ++ s) = true.
Proof.
  induction p as [|c p IH].
  - destruct s; reflexivity.
  - change (String c p ++ s) with (String c (p ++ s)). simpl.
    destruct (ascii_dec c c); [exact IH|congruence].
Qed.

Lemma isInfixOf_unfold p s :
  isInfixOf p s =
  String.prefix p s ||
  match s with EmptyString => false | String _ s' => isInfixOf p s' end.
Proof. destruct s; reflexivity. Qed.

Lemma isInfixOf_append a p b : isInfixOf p (a ++ (p ++ b)) = true.
Proof.
  induction a as [|c a IH].
  - rewrite append_nil_l, isInfixOf_unfold, prefix_append. reflexivity.
  - rewrite append_cons, isInfixOf_unfold, IH. apply orb_true_r.
Qed.

Lemma string_of_uint_startsWith u :
  startsWith "[" (NilZero.string_of_uint u) = false.
Proof. destruct u; reflexivity. Qed.

Lemma decimal_startsWith n : startsWith "[" (Fixture.decimal n) = false.
Proof.
  unfold Fixture.decimal. destruct n as [|p|p]; simpl; [reflexivity| |reflexivity].
  apply string_of_uint_startsWith.
Qed.

(** The engine's serializer writes a text that starts with a bracket for
    the arrays and for nothing else. *)
Lemma serialize_startsWith v raw :
  Fixture.serialize v = Some raw -> startsWith "[" raw = isArray v.
Proof.
  destruct v as [| |b|n|t|elems|props|f|]; simpl; intros H;
    try discriminate; injection H as <-; try reflexivity.
  - destruct b; reflexivity.
  - apply decimal_startsWith.
Qed.

(** On a text that does not start with white space the outermost token is
    read off the first byte. *)
Lemma outermostToken_first_byte raw :
  startsWithSpace raw = false ->
  outermostToken raw
  = match raw with
    | EmptyString => NoToken
    | String c _ =>
        if Ascii.eqb c "[" then ArrayOpen
        else if Ascii.eqb c "{" then ObjectOpen
        else OtherToken
    end.
Proof. destruct raw as [|c rest]; simpl; [reflexivity|]. intros ->. reflexivity. Qed.

Lemma outermostToken_array raw :
  startsWithSpace raw = false ->
  outermostToken raw = ArrayOpen <-> startsWith "[" raw = true.
Proof.
  intros Hsp. rewrite (outermostToken_first_byte raw Hsp).
  destruct raw as [|c rest]; simpl; [split; discriminate|].
  destruct (Ascii.eqb c "["); [tauto|].
  destruct (Ascii.eqb c "{"); split; discriminate.
Qed.

Lemma outermostToken_not_array raw :
  startsWithSpace raw = false ->
  outermostToken raw = ObjectOpen \/ outermostToken raw = OtherToken ->
  raw <> EmptyString /\ startsWith "[" raw = false.
Proof.
  intros Hsp. rewrite (outermostToken_first_byte raw Hsp).
  destruct raw as [|c rest]; simpl; [intros [H|H]; discriminate|].
  destruct (Ascii.eqb c "["); [intros [H|H]; discriminate|].
  intros _. split; [discriminate|reflexivity].
Qed.

Lemma string_of_uint_startsWithSpace u :
  startsWithSpace (NilZero.string_of_uint u) = false.
Proof. destruct u; reflexivity. Qed.

(** The engine's serializer writes no white space first, and its text
    opens an array for the arrays only and an object for the objects. *)
Lemma serialize_startsWithSpace v raw :
  Fixture.serialize v = Some raw -> startsWithSpace raw = false.
Proof.
  destruct v as [| |b|n|t|elems|props|f|]; simpl; intros H;
    try discriminate; injection H as <-; try reflexivity.
  - destruct b; reflexivity.
  - unfold Fixture.decimal. destruct n as [|p|p]; simpl; [reflexivity| |reflexivity].
    apply string_of_uint_startsWithSpace.
Qed.

Lemma serialize_outermostToken v raw :
  Fixture.serialize v = Some raw ->
  (outermostToken raw = ArrayOpen <-> isArray v = true)
  /\ (isObject v = true -> outermostToken raw = ObjectOpen).
Proof.
  intros H. split.
  - rewrite (outermostToken_array raw (serialize_startsWithSpace v raw H)).
    rewrite (serialize_startsWith v raw H). tauto.
  - destruct v; try discriminate. simpl in H. injection H as <-. reflexivity.
Qed.

(* ===================================================================== *)
(** * Properties of Send *)
(* ===================================================================== *)

Section SendProperties.

Variable W : Type.
Variable stringify : W -> Value -> result error string.
Variable unmarshalCalls : string -> result string (list RPCCall).
Variable unmarshalCall : string -> result string RPCCall.
Variable Execute : RPCCall -> W -> result error Props * W.

Lemma decodeRequest_batch raw reqs :
  startsWith "[" raw = true ->
  unmarshalCalls raw = Ok reqs ->
  decodeRequest unmarshalCalls unmarshalCall raw = DecCalls true reqs.
Proof.
  destruct raw as [|c raw]; simpl; [discriminate|].
  intros -> ->. reflexivity.
Qed.

Lemma decodeRequest_single raw req :
  raw <> EmptyString ->
  startsWith "[" raw = false ->
  unmarshalCall raw = Ok req ->
  decodeRequest unmarshalCalls unmarshalCall raw = DecCalls false [req].
Proof.
  destruct raw as [|c raw]; simpl; [congruence|].
  intros _ -> ->. reflexivity.
Qed.

(** What the recording policy has on record after [Send]: the calls that
    reached it, after what it had. *)
Lemma SendRecorded_decoded arg w log raw batch reqs :
  stringify w arg = Ok raw ->
  decodeRequest unmarshalCalls unmarshalCall raw = DecCalls batch reqs ->
  SendRecorded W Execute stringify unmarshalCalls unmarshalCall arg w log =
  (fst (Send W stringify unmarshalCalls unmarshalCall Execute arg w),
   (snd (Send W stringify unmarshalCalls unmarshalCall Execute arg w),
    (log ++ executed W Execute reqs w)%list)).
Proof.
  intros Hs Hd. unfold SendRecorded, Send. simpl. rewrite Hs, Hd.
  rewrite executeRequests_recording.
  destruct (executeRequests W Execute reqs zeroRPCCall w []) as [resps req w'|v w'];
    [destruct batch|]; reflexivity.
Qed.

End SendProperties.

Section SendClaims.

Variable W : Type.
Variable stringify : W -> Value -> result error string.
Variable unmarshalCalls : string -> result string (list RPCCall).
Variable unmarshalCall : string -> result string RPCCall.
Variable Execute : RPCCall -> W -> result error Props * W.

(** The response to a batch without a fatal answer: one entry per call, in
    the order of the calls.  With the policy of the specification the
    entry of a call that succeeded reads with the id of that call; the
    entry of a call that failed reads with the id of the last call of the
    batch, which is what the loop variable holds in the end. *)
Lemma Send_batch_entries
    (backend : RPCCall -> W -> Verdict * W) arg w raw reqs :
  stringify w arg = Ok raw ->
  startsWith "[" raw = true ->
  unmarshalCalls raw = Ok reqs ->
  noFatal W (policyExecute backend) reqs w = true ->
  exists resps w',
    Send W stringify unmarshalCalls unmarshalCall (policyExecute backend) arg w
    = (Returned (VArray resps), w')
    /\ length resps = length reqs
    /\ forall k req, reqs !! k = Some req ->
         exists resp,
           resps !! k = Some resp
           /\ field "id" resp
              = Some (idValue (ID
                  match fst (backend req (stateAfter W (policyExecute backend)
                                                     (take k reqs) w)) with
                  | Success _ => req
                  | _ => List.last reqs zeroRPCCall
                  end)).
Proof.
  intros Hs Hb Hd Hnf.
  exists (List.map (look (List.last reqs zeroRPCCall))
                   (responses W (policyExecute backend) reqs w)),
         (stateAfter W (policyExecute backend) reqs w).
  split; [|split].
  - unfold Send. rewrite Hs, (decodeRequest_batch unmarshalCalls unmarshalCall _ _ Hb Hd).
    rewrite (executeRequests_noFatal _ _ _ _ _ _ Hnf). reflexivity.
  - rewrite length_map. apply responses_length.
  - intros k req Hk. rewrite look_lookup, (responses_lookup _ _ _ _ _ _ Hk).
    eexists; split; [reflexivity|].
    unfold policyExecute.
    destruct (backend req _) as [[v|msg|msg] w1]; simpl; try reflexivity.
    rewrite look_idValue. reflexivity.
Qed.

(** C2 (amended): when the policy answers call k of a batch with a
    [StopRPCCallError], the calls after k never reach the policy, and
    [Send] returns, as its value, the single error response
    [{jsonrpc:"2.0", id:null, error:{code:-32603, message:<error text>}}]:
    no array, and nothing thrown. *)
Theorem Send_fatal_error_stops_batch arg w log raw pre req post msg w' :
  stringify w arg = Ok raw ->
  startsWith "[" raw = true ->
  unmarshalCalls raw = Ok (pre ++ req :: post)%list ->
  noFatal W Execute pre w = true ->
  Execute req (stateAfter W Execute pre w) = (Err (StopRPCCallError msg), w') ->
  Send W stringify unmarshalCalls unmarshalCall Execute arg w
  = (Returned (newErrorResponseOtto msg VNull), w')
  /\ SendRecorded W Execute stringify unmarshalCalls unmarshalCall arg w log
     = (Returned (newErrorResponseOtto msg VNull), (w', (log ++ pre ++ [req])%list))
  /\ field "id" (newErrorResponseOtto msg VNull) = Some VNull
  /\ field "error" (newErrorResponseOtto msg VNull)
     = Some (VObject [("code", VNumber (-32603)); ("message", VString msg)]).
Proof.
  intros Hs Hb Hd Hnf Hx.
  assert (Hsend : Send W stringify unmarshalCalls unmarshalCall Execute arg w
                  = (Returned (newErrorResponseOtto msg VNull), w')).
  { unfold Send. rewrite Hs, (decodeRequest_batch unmarshalCalls unmarshalCall _ _ Hb Hd).
    rewrite executeRequests_app, (executeRequests_noFatal _ _ _ _ _ _ Hnf).
    simpl. rewrite Hx. reflexivity. }
  split; [exact Hsend|]. split; [|split; reflexivity].
  rewrite (SendRecorded_decoded _ _ _ _ _ _ _ _ _ _ _ Hs
             (decodeRequest_batch unmarshalCalls unmarshalCall _ _ Hb Hd)).
  rewrite Hsend, (executed_app _ _ _ _ _ Hnf). simpl. rewrite Hx. reflexivity.
Qed.

(** The entry of a call of a batch that the policy answers with an error
    other than a fatal one: [Send] appends, after the entries of the calls
    before it, the map [{jsonrpc:"2.0", id: &req.ID, error:{code:-32603,
    message:<error text>}}], which read at once has the id of the call; the
    loop goes on with the next call, so the calls after it reach the
    policy; and in the array that [Send] returns the entry reads with the
    id of the last call of the batch. *)
Lemma Send_recoverable_error_entry arg w log raw pre req post msg w1 :
  stringify w arg = Ok raw ->
  startsWith "[" raw = true ->
  unmarshalCalls raw = Ok (pre ++ req :: post)%list ->
  noFatal W Execute pre w = true ->
  Execute req (stateAfter W Execute pre w) = (Err (OtherError msg), w1) ->
  let entry := VObject (newErrorResponse msg VReqID) in
  (* the entry, read while the loop variable holds the call *)
  look req entry
  = VObject [ ("jsonrpc", VString "2.0"); ("id", idValue (ID req));
              ("error", VObject [("code", VNumber (-32603)); ("message", VString msg)]) ]
  (* it is appended after the entries of the calls before it, and the loop
     goes on *)
  /\ executeRequests W Execute (pre ++ req :: post) zeroRPCCall w []
     = executeRequests W Execute post req w1 (responses W Execute pre w ++ [entry])
  /\ length (responses W Execute pre w) = length pre
  (* the calls after it reach the policy *)
  /\ snd (snd (SendRecorded W Execute stringify unmarshalCalls unmarshalCall arg w log))
     = (log ++ pre ++ req :: executed W Execute post w1)%list
  (* the entry as the returned array shows it *)
  /\ (noFatal W Execute post w1 = true ->
      exists resps w',
        Send W stringify unmarshalCalls unmarshalCall Execute arg w
        = (Returned (VArray resps), w')
        /\ length resps = length (pre ++ req :: post)
        /\ resps !! length pre = Some (look (List.last post req) entry)).
Proof.
  intros Hs Hb Hd Hnf Hx entry.
  pose proof (decodeRequest_batch unmarshalCalls unmarshalCall _ _ Hb Hd) as Hdec.
  split; [reflexivity|].
  assert (Hloop : executeRequests W Execute (pre ++ req :: post) zeroRPCCall w []
                  = executeRequests W Execute post req w1
                      (responses W Execute pre w ++ [entry])).
  { rewrite executeRequests_app, (executeRequests_noFatal _ _ _ _ _ _ Hnf).
    simpl. rewrite Hx. reflexivity. }
  split; [exact Hloop|]. split; [apply responses_length|]. split.
  - rewrite (SendRecorded_decoded _ _ _ _ _ _ _ _ _ _ _ Hs Hdec). simpl.
    rewrite (executed_app _ _ _ _ _ Hnf). simpl. rewrite Hx. reflexivity.
  - intros Hpost.
    exists (List.map (look (List.last post req))
              ((responses W Execute pre w ++ [entry])
                 ++ responses W Execute post w1)),
           (stateAfter W Execute post w1).
    split; [|split].
    + unfold Send. rewrite Hs, Hdec, Hloop.
      rewrite (executeRequests_noFatal _ _ _ _ _ _ Hpost). reflexivity.
    + rewrite length_map, !length_app, !responses_length. simpl. lia.
    + rewrite look_lookup, <- app_assoc.
      rewrite lookup_app_r; rewrite responses_length; [|lia].
      rewrite Nat.sub_diag. reflexivity.
Qed.

(** C4: [Send] takes the serialized request, a text that as
    [JSON.stringify] writes it has no white space first, for a batch
    exactly when its outermost token opens an array, and for a single
    call when it opens an object (or is anything else).  A batch is
    decoded as a sequence of calls, which reach the policy in their order
    and get an array of as many responses; a single request is decoded as
    one call, which alone reaches the policy and whose response is no
    array.  When decoding fails no call reaches the policy, and [Send]
    throws an exception whose text is [can't unmarshal ], the raw
    payload, [ (batch=true): ] for a batch and [ (batch=false): ] for a
    single request, and the text of the decoder.  For the texts the
    engine's serializer writes, the token opens an array exactly for the
    arrays and opens an object for the objects. *)
Theorem Send_classifies_and_decodes arg w log raw :
  stringify w arg = Ok raw ->
  startsWithSpace raw = false ->
  (outermostToken raw = ArrayOpen ->
     (forall reqs, unmarshalCalls raw = Ok reqs ->
        snd (snd (SendRecorded W Execute stringify unmarshalCalls unmarshalCall arg w log))
        = (log ++ executed W Execute reqs w)%list
        /\ (noFatal W Execute reqs w = true ->
            executed W Execute reqs w = reqs
            /\ exists resps w',
                 Send W stringify unmarshalCalls unmarshalCall Execute arg w
                 = (Returned (VArray resps), w')
                 /\ length resps = length reqs))
     /\ (forall err, unmarshalCalls raw = Err err ->
           let msg := "can't unmarshal " ++ raw ++ " (batch=true): " ++ err in
           Send W stringify unmarshalCalls unmarshalCall Execute arg w = (Thrown msg, w)
           /\ SendRecorded W Execute stringify unmarshalCalls unmarshalCall arg w log
              = (Thrown msg, (w, log))
           /\ isInfixOf raw msg = true
           /\ isInfixOf "(batch=true)" msg = true))
  /\ (outermostToken raw = ObjectOpen \/ outermostToken raw = OtherToken ->
     (forall req, unmarshalCall raw = Ok req ->
        snd (snd (SendRecorded W Execute stringify unmarshalCalls unmarshalCall arg w log))
        = (log ++ [req])%list
        /\ exists v w',
             Send W stringify unmarshalCalls unmarshalCall Execute arg w
             = (Returned v, w')
             /\ isArray v = false)
     /\ (forall err, unmarshalCall raw = Err err ->
           let msg := "can't unmarshal " ++ raw ++ " (batch=false): " ++ err in
           Send W stringify unmarshalCalls unmarshalCall Execute arg w = (Thrown msg, w)
           /\ SendRecorded W Execute stringify unmarshalCalls unmarshalCall arg w log
              = (Thrown msg, (w, log))
           /\ isInfixOf raw msg = true
           /\ isInfixOf "(batch=false)" msg = true))
  /\ (forall v, Fixture.serialize v = Some raw ->
        (outermostToken raw = ArrayOpen <-> isArray v = true)
        /\ (isObject v = true -> outermostToken raw = ObjectOpen)).
Proof.
  intros Hs Hsp. split; [|split].
  - intros Htok. apply (outermostToken_array raw Hsp) in Htok. split.
    + intros reqs Hd.
      pose proof (decodeRequest_batch unmarshalCalls unmarshalCall _ _ Htok Hd) as Hdec.
      split.
      * rewrite (SendRecorded_decoded _ _ _ _ _ _ _ _ _ _ _ Hs Hdec). reflexivity.
      * intros Hnf. split.
        -- pose proof (executed_app W Execute reqs [] w Hnf) as Hx.
           rewrite app_nil_r in Hx. rewrite Hx. simpl. apply app_nil_r.
        -- exists (List.map (look (List.last reqs zeroRPCCall))
                     (responses W Execute reqs w)),
                  (stateAfter W Execute reqs w).
           split; [|rewrite length_map; apply responses_length].
           unfold Send. rewrite Hs, Hdec.
           rewrite (executeRequests_noFatal _ _ _ _ _ _ Hnf). reflexivity.
    + intros err Herr msg.
      assert (Hdec : decodeRequest unmarshalCalls unmarshalCall raw = DecError true err).
      { destruct raw as [|c rest]; simpl in *; [discriminate|].
        rewrite Htok, Herr. reflexivity. }
      split; [|split; [|split]].
      * unfold Send. rewrite Hs, Hdec. reflexivity.
      * unfold SendRecorded, Send. simpl. rewrite Hs, Hdec. reflexivity.
      * apply isInfixOf_append.
      * subst msg.
        replace ("can't unmarshal " ++ raw ++ " (batch=true): " ++ err)
          with (("can't unmarshal " ++ raw ++ " ") ++ "(batch=true)" ++ (": " ++ err)).
        -- apply isInfixOf_append.
        -- norm_append. reflexivity.
  - intros Htok. destruct (outermostToken_not_array raw Hsp Htok) as [Hne Hb]. split.
    + intros req Hd.
      pose proof (decodeRequest_single unmarshalCalls unmarshalCall _ _ Hne Hb Hd) as Hdec.
      split.
      * rewrite (SendRecorded_decoded _ _ _ _ _ _ _ _ _ _ _ Hs Hdec). simpl.
        destruct (Execute req w) as [[res|[m|m]] w1]; reflexivity.
      * unfold Send. rewrite Hs, Hdec. simpl.
        destruct (Execute req w) as [[res|[m|m]] w1]; simpl;
          eexists; eexists; split; reflexivity.
    + intros err Herr msg.
      assert (Hdec : decodeRequest unmarshalCalls unmarshalCall raw = DecError false err).
      { destruct raw as [|c rest]; simpl in *; [congruence|].
        rewrite Hb, Herr. reflexivity. }
      split; [|split; [|split]].
      * unfold Send. rewrite Hs, Hdec. reflexivity.
      * unfold SendRecorded, Send. simpl. rewrite Hs, Hdec. reflexivity.
      * apply isInfixOf_append.
      * subst msg.
        replace ("can't unmarshal " ++ raw ++ " (batch=false): " ++ err)
          with (("can't unmarshal " ++ raw ++ " ") ++ "(batch=false)" ++ (": " ++ err)).
        -- apply isInfixOf_append.
        -- norm_append. reflexivity.
  - intros v Hv. apply (serialize_outermostToken v raw Hv).
Qed.

(** C5: for a single-call request, one whose serialized text does not
    open an array, [Send] returns the response of that call itself, an
    object and not an array: the policy's response, the error response
    with the id of the call, or the fatal error response. *)
Theorem Send_single_returns_response arg w raw req :
  stringify w arg = Ok raw ->
  raw <> EmptyString ->
  startsWith "[" raw = false ->
  unmarshalCall raw = Ok req ->
  exists v,
    Send W stringify unmarshalCalls unmarshalCall Execute arg w
    = (Returned v, snd (Execute req w))
    /\ v = match fst (Execute req w) with
           | Err (StopRPCCallError msg) => newErrorResponseOtto msg VNull
           | Err (OtherError msg) => VObject (newErrorResponse msg (idValue (ID req)))
           | Ok res => look req (VObject res)
           end
    /\ isObject v = true
    /\ isArray v = false.
Proof.
  intros Hs Hne Hb Hd.
  pose proof (decodeRequest_single unmarshalCalls unmarshalCall _ _ Hne Hb Hd) as Hdec.
  unfold Send. rewrite Hs, Hdec. simpl.
  destruct (Execute req w) as [[res|[msg|msg]] w1]; simpl;
    eexists; repeat split; reflexivity.
Qed.

(** C9: [Send] reads [rawReq[0]] without a check on the length: when the
    serialization of the argument is the empty text, it ends in the
    runtime panic of an index out of range, and not in the exception it
    throws for a payload it cannot decode; no call reaches the policy. *)
Theorem Send_empty_payload_panics arg w :
  stringify w arg = Ok EmptyString ->
  Send W stringify unmarshalCalls unmarshalCall Execute arg w
  = (Panicked "runtime error: index out of range", w)
  /\ (forall msg,
       fst (Send W stringify unmarshalCalls unmarshalCall Execute arg w) <> Thrown msg)
  /\ forall log,
       snd (snd (SendRecorded W Execute stringify unmarshalCalls unmarshalCall arg w log))
       = log.
Proof.
  intros Hs. unfold SendRecorded, Send. simpl. rewrite Hs. simpl.
  repeat split. intros msg. discriminate.
Qed.

End SendClaims.

(** Closing a goal of closed terms by evaluation. *)
Ltac by_eval := vm_compute; reflexivity.

(** C1 fails on the code for a batch in which a call that fails is not the
    last one.  On the batch of [bad] with id 1, [a] with id 2 and [b] with
    id 3, the first of which the policy answers with an error that is not
    fatal, [Send] returns three entries in the order of the calls, and the
    first, the error entry, reads with id 3: the entry holds the pointer
    [&req.ID] to the loop variable, which the later iterations assign. *)
Theorem Send_batch_error_entry_reads_last_id :
  Fixture.unmarshalCalls
    (lit "[{'method':'bad','params':[],'id':1},{'method':'a','params':[2,3],'id':2},{'method':'b','params':[],'id':3}]")
  = Ok [ Fixture.rpc_call "bad" [] 1;
         Fixture.rpc_call "a" [VNumber 2; VNumber 3] 2;
         Fixture.rpc_call "b" [] 3 ]
  /\ Fixture.send Fixture.batch_bad_first 0
     = (Returned
          (VArray
             [ VObject [ ("jsonrpc", VString "2.0"); ("id", VNumber 3);
                         ("error", VObject [ ("code", VNumber (-32603));
                                             ("message", VString "boom") ]) ];
               VObject [ ("jsonrpc", VString "2.0"); ("id", VNumber 2);
                         ("result", VNumber 5) ];
               VObject [ ("jsonrpc", VString "2.0"); ("id", VNumber 3);
                         ("result", VNull) ] ]),
        3).
Proof. split; by_eval. Qed.

(** C2, as the specification has it, fails on the code: on a batch whose
    second call is fatal, [Send] ends by returning a value, the error
    response, and throws no exception. *)
Lemma Send_fatal_error_is_returned :
  fst (Fixture.send Fixture.batch_stop 0)
  = Returned (VObject [ ("error", VObject [ ("code", VNumber (-32603));
                                            ("message", VString "transaction discarded") ]);
                        ("id", VNull);
                        ("jsonrpc", VString "2.0") ])
  /\ forall msg, fst (Fixture.send Fixture.batch_stop 0) <> Thrown msg.
Proof.
  assert (H : fst (Fixture.send Fixture.batch_stop 0)
              = Returned (newErrorResponseOtto "transaction discarded" VNull))
    by by_eval.
  split; [exact H|]. intros msg. rewrite H. discriminate.
Qed.

(** C2 (amended) on a batch of three calls whose second is fatal: the
    policy gets two calls, and the error response is returned. *)
Lemma Send_fatal_error_stops_batch_witness :
  Fixture.send Fixture.batch_stop 0
  = (Returned (newErrorResponseOtto "transaction discarded" VNull), 2)
  /\ SendRecorded nat Fixture.Execute Fixture.stringify Fixture.unmarshalCalls
       Fixture.unmarshalCall Fixture.batch_stop 0 []
     = (Returned (newErrorResponseOtto "transaction discarded" VNull),
        (2, [Fixture.rpc_call "a" [] 1; Fixture.rpc_call "stop" [] 2])).
Proof.
  destruct (Send_fatal_error_stops_batch nat Fixture.stringify Fixture.unmarshalCalls
              Fixture.unmarshalCall Fixture.Execute Fixture.batch_stop 0 []
              (lit "[{'method':'a','params':[],'id':1},{'method':'stop','params':[],'id':2},{'method':'bad','params':[],'id':3}]")
              [Fixture.rpc_call "a" [] 1]
              (Fixture.rpc_call "stop" [] 2)
              [Fixture.rpc_call "bad" [] 3]
              "transaction discarded" 2
              ltac:(by_eval) ltac:(by_eval) ltac:(by_eval) ltac:(by_eval) ltac:(by_eval))
    as (Hsend & Hrec & _).
  split; [exact Hsend | exact Hrec].
Defined.

(** C3 fails on the code for a failing call that is not the last of its
    batch.  On the batch of [bad] with id 1 and [a] with id 2, [Send]
    appends the error entry at the position of [bad], with the code
    -32603 and the text of the error, and goes on to [a], which reaches
    the policy; but the entry reads with id 2, the id of [a], and not with
    the id of the call that failed. *)
Theorem Send_error_entry_reads_later_id :
  Fixture.send Fixture.batch_bad_good 0
  = (Returned
       (VArray
          [ VObject [ ("jsonrpc", VString "2.0"); ("id", VNumber 2);
                      ("error", VObject [ ("code", VNumber (-32603));
                                          ("message", VString "boom") ]) ];
            VObject [ ("jsonrpc", VString "2.0"); ("id", VNumber 2);
                      ("result", VNull) ] ]),
     2)
  /\ snd (snd (SendRecorded nat Fixture.Execute Fixture.stringify Fixture.unmarshalCalls
                 Fixture.unmarshalCall Fixture.batch_bad_good 0 []))
     = [ Fixture.rpc_call "bad" [] 1; Fixture.rpc_call "a" [] 2 ].
Proof. split; by_eval. Qed.

(** C4 on four arguments.  The array [[1]] is a batch that does not
    decode, and the text thrown has [(batch=true)]; the string ["x"] is a
    single request that does not decode, and the text thrown has
    [(batch=false)].  The array of the calls [a] and [bad] is a batch
    whose two calls reach the policy in their order, and the object of
    the call [foo] is a single request whose one call does. *)
Lemma Send_classifies_and_decodes_witness :
  Fixture.send (VArray [VNumber 1]) 0
  = (Thrown ("can't unmarshal [1] (batch=true): "
             ++ "json: cannot unmarshal value into Go value of type common.RPCCall"),
     0)
  /\ Fixture.send (VString "x") 0
     = (Thrown ("can't unmarshal "
                ++ String dquote ("x" ++ String dquote
                     (" (batch=false): "
                      ++ "json: cannot unmarshal value into Go value of type common.RPCCall"))),
        0)
  /\ snd (snd (SendRecorded nat Fixture.Execute Fixture.stringify Fixture.unmarshalCalls
                 Fixture.unmarshalCall Fixture.batch_bad 0 []))
     = [ Fixture.rpc_call "a" [] 1; Fixture.rpc_call "bad" [] 2 ]
  /\ snd (snd (SendRecorded nat Fixture.Execute Fixture.stringify Fixture.unmarshalCalls
                 Fixture.unmarshalCall Fixture.single_foo 0 []))
     = [ Fixture.rpc_call "foo" [VNumber 1; VNumber 2] 7 ].
Proof.
  split; [|split; [|split]].
  - destruct (Send_classifies_and_decodes nat Fixture.stringify Fixture.unmarshalCalls
                Fixture.unmarshalCall Fixture.Execute (VArray [VNumber 1]) 0 [] "[1]"
                ltac:(by_eval) ltac:(by_eval))
      as (Hbatch & _ & _).
    destruct (Hbatch ltac:(by_eval)) as (_ & Hfail).
    destruct (Hfail "json: cannot unmarshal value into Go value of type common.RPCCall"
                ltac:(by_eval)) as (Hthrown & _).
    exact Hthrown.
  - destruct (Send_classifies_and_decodes nat Fixture.stringify Fixture.unmarshalCalls
                Fixture.unmarshalCall Fixture.Execute (VString "x") 0 [] (lit "'x'")
                ltac:(by_eval) ltac:(by_eval))
      as (_ & Hsingle & _).
    destruct (Hsingle ltac:(right; by_eval)) as (_ & Hfail).
    destruct (Hfail "json: cannot unmarshal value into Go value of type common.RPCCall"
                ltac:(by_eval)) as (Hthrown & _).
    exact Hthrown.
  - destruct (Send_classifies_and_decodes nat Fixture.stringify Fixture.unmarshalCalls
                Fixture.unmarshalCall Fixture.Execute Fixture.batch_bad 0 []
                (lit "[{'method':'a','params':[],'id':1},{'method':'bad','params':[],'id':2}]")
                ltac:(by_eval) ltac:(by_eval))
      as (Hbatch & _ & _).
    destruct (Hbatch ltac:(by_eval)) as (Hdecoded & _).
    destruct (Hdecoded [ Fixture.rpc_call "a" [] 1; Fixture.rpc_call "bad" [] 2 ]
                ltac:(by_eval)) as (Hrec & _).
    exact Hrec.
  - destruct (Send_classifies_and_decodes nat Fixture.stringify Fixture.unmarshalCalls
                Fixture.unmarshalCall Fixture.Execute Fixture.single_foo 0 []
                (lit "{'method':'foo','params':[1,2],'id':7}")
                ltac:(by_eval) ltac:(by_eval))
      as (_ & Hsingle & _).
    destruct (Hsingle ltac:(left; by_eval)) as (Hdecoded & _).
    destruct (Hdecoded (Fixture.rpc_call "foo" [VNumber 1; VNumber 2] 7)
                ltac:(by_eval)) as (Hrec & _).
    exact Hrec.
Defined.

(** C5 on the request [{"method":"foo","params":[1,2],"id":7}] of the
    specification, the backend answering [params[0]+params[1]]: the object
    [{"jsonrpc":"2.0","id":7,"result":3}]. *)
Lemma Send_single_returns_response_witness :
  Fixture.stringify 0 Fixture.single_foo
  = Ok (lit "{'method':'foo','params':[1,2],'id':7}")
  /\ Fixture.send Fixture.single_foo 0
     = (Returned (VObject [ ("jsonrpc", VString "2.0"); ("id", VNumber 7);
                            ("result", VNumber 3) ]), 1).
Proof.
  split; [by_eval|].
  destruct (Send_single_returns_response nat Fixture.stringify Fixture.unmarshalCalls
              Fixture.unmarshalCall Fixture.Execute Fixture.single_foo 0
              (lit "{'method':'foo','params':[1,2],'id':7}")
              (Fixture.rpc_call "foo" [VNumber 1; VNumber 2] 7)
              ltac:(by_eval) ltac:(discriminate) ltac:(by_eval) ltac:(by_eval))
    as (v & Hsend & Hv & _).
  unfold Fixture.send. rewrite Hsend, Hv. reflexivity.
Defined.

(** C9 on a cell whose script has rebound [JSON.stringify] to return the
    empty text. *)
Lemma Send_empty_payload_panics_witness :
  Send nat Fixture.stringify_rebound Fixture.unmarshalCalls Fixture.unmarshalCall
       Fixture.Execute Fixture.single_foo 0
  = (Panicked "runtime error: index out of range", 0).
Proof.
  apply (Send_empty_payload_panics nat Fixture.stringify_rebound Fixture.unmarshalCalls
           Fixture.unmarshalCall Fixture.Execute Fixture.single_foo 0).
  reflexivity.
Defined.

(* ===================================================================== *)
(** * Properties of the jail *)
(* ===================================================================== *)

Section RegistryClaims.

Variable VM : Type.
Variable otto_New : VM.
Variable newCell : string -> VM -> result error VM.
Variable cell_Set : string -> Value -> VM -> option error * VM.
Variable registerHandlers : string -> VM -> option error * VM.
Variable cell_Run : string -> VM -> result error Value * VM.
Variable cell_Get : string -> VM -> result error Value.
Variable Value_String : Value -> string.
Variable web3JSCode : string.

Local Abbreviation Parse' :=
  (Parse VM otto_New newCell cell_Set registerHandlers cell_Run cell_Get
         Value_String web3JSCode).
Local Abbreviation initCell' :=
  (initCell VM cell_Set registerHandlers cell_Run cell_Get Value_String web3JSCode).
Local Abbreviation InitFails' :=
  (InitFails VM cell_Set registerHandlers cell_Run cell_Get web3JSCode).

(** A failing step ends [initCell] with the error envelope and leaves
    the engine as that step left it. *)
Lemma initCell_fails (jail : Jail VM) chatID js cell e cell' :
  InitFails' jail chatID js cell e cell' ->
  initCell' jail chatID js cell = (makeError (Error e), cell').
Proof.
  intros H. unfold initCell.
  destruct H as [e c1 H1|e c1 c2 H1 H2|e c1 c2 c3 H1 H2 H3
                |e c1 c2 c3 v c4 H1 H2 H3 H4|e c1 c2 c3 v c4 v' H1 H2 H3 H4 H5];
    rewrite H1; try rewrite H2; try rewrite H3; try rewrite H4; try rewrite H5;
    reflexivity.
Qed.

Lemma withCell_lookup (jail : Jail VM) chatID cell :
  cells (withCell VM jail chatID cell) !! chatID = Some cell.
Proof. simpl. apply lookup_insert_eq. Qed.

Lemma withCell_lookup_ne (jail : Jail VM) chatID other cell :
  other <> chatID ->
  cells (withCell VM jail chatID cell) !! other = cells jail !! other.
Proof. intros Hne. simpl. apply lookup_insert_ne. congruence. Qed.

(** [Call] hands the error of [cell.Call] to [makeResult], which returns
    the error envelope for it. *)
Lemma Call_error_envelope
    (cell_Call : string -> list Value -> VM -> (Value * option error) * VM)
    (jail : Jail VM) chatID this args cell res err cell' :
  cells jail !! chatID = Some cell ->
  cell_Call "call" [VString this; VString args] cell = ((res, Some err), cell') ->
  fst (Call VM cell_Call Value_String jail chatID this args) = makeError (Error err).
Proof.
  intros Hcell Hcall. unfold Call, Cell. rewrite Hcell, Hcall. reflexivity.
Qed.

(** C7: when a step of [Parse] fails once it holds the cell (setting
    [jeth], registering the handlers, running the base code, running the
    composed script, or reading the catalog), [Parse] returns the error
    envelope, the cell stays registered under the chat id, and its
    engine is in the state the failing step left: nothing is rolled
    back.  The cell is the registered one, or the one [Parse] has just
    created. *)
Theorem Parse_failure_keeps_cell (jail : Jail VM) chatID js cell e cell' :
  cells jail !! chatID = Some cell
  \/ (cells jail !! chatID = None /\ newCell chatID otto_New = Ok cell) ->
  InitFails' jail chatID js cell e cell' ->
  exists jail',
    Parse' (Some jail) chatID js = (makeError (Error e), Some jail')
    /\ cells jail' !! chatID = Some cell'
    /\ Cell VM jail' chatID = Ok cell'
    /\ (forall other, other <> chatID -> cells jail' !! other = cells jail !! other)
    /\ baseJSCode jail' = baseJSCode jail.
Proof.
  intros Hcell Hfail. apply initCell_fails in Hfail.
  destruct Hcell as [Hreg|[Hnone Hnew]].
  - exists (withCell VM jail chatID cell').
    unfold Parse, Cell. rewrite Hreg, Hfail.
    rewrite withCell_lookup.
    repeat split. intros other Hne. apply withCell_lookup_ne, Hne.
  - set (jail1 := {| cells := <[chatID := cell]> (cells jail);
                     baseJSCode := baseJSCode jail |}).
    exists (withCell VM jail1 chatID cell').
    unfold Parse, Cell, NewCell. rewrite Hnone, Hnew. fold jail1.
    replace (cells jail1 !! chatID) with (Some cell)
      by (symmetry; apply lookup_insert_eq).
    replace (initCell' jail1 chatID js cell) with (initCell' jail chatID js cell)
      by reflexivity.
    rewrite Hfail, withCell_lookup.
    repeat split. intros other Hne.
    rewrite withCell_lookup_ne by exact Hne.
    simpl. apply lookup_insert_ne. congruence.
Qed.

(** C10: [NewCell] looks for no cell under the chat id: whatever the
    registry holds, it makes a cell on a new engine, stores it under the
    chat id in place of the cell registered there, if any, and returns
    it without an error; the other cells stay. *)
Theorem NewCell_replaces_registered_cell (jail : Jail VM) chatID cell :
  newCell chatID otto_New = Ok cell ->
  exists jail',
    NewCell VM otto_New newCell (Some jail) chatID = (Ok cell, Some jail')
    /\ cells jail' = <[chatID := cell]> (cells jail)
    /\ Cell VM jail' chatID = Ok cell
    /\ (forall old, cells jail !! chatID = Some old ->
          Cell VM jail chatID = Ok old /\ Cell VM jail' chatID = Ok cell)
    /\ (forall other, other <> chatID -> Cell VM jail' other = Cell VM jail other)
    /\ baseJSCode jail' = baseJSCode jail.
Proof.
  intros Hnew.
  exists {| cells := <[chatID := cell]> (cells jail);
            baseJSCode := baseJSCode jail |}.
  assert (Hreg : Cell VM {| cells := <[chatID := cell]> (cells jail);
                            baseJSCode := baseJSCode jail |} chatID = Ok cell).
  { unfold Cell. simpl. rewrite lookup_insert_eq. reflexivity. }
  unfold NewCell. rewrite Hnew.
  split; [reflexivity|]. split; [reflexivity|]. split; [exact Hreg|].
  split; [|split; [|reflexivity]].
  - intros old Hold. split; [|exact Hreg]. unfold Cell. rewrite Hold. reflexivity.
  - intros other Hne. unfold Cell. simpl.
    rewrite lookup_insert_ne by congruence. reflexivity.
Qed.

End RegistryClaims.

(** C7 on a script that throws, in a jail with no cell for the chat: the
    cell [Parse] has made is registered, and its engine has the handlers,
    the base code and what the failed script did. *)
Lemma Parse_failure_keeps_cell_witness :
  Fixture.jail0.(cells) !! "chat" = None
  /\ exists jail',
      Fixture.parse_script Fixture.jail0 "chat" "var x = 1; throw x"
      = (lit "{'error':'Error: thrown by the script'}", Some jail')
      /\ cells jail' !! "chat"
         = Some [ "set jeth"; "handlers chat"; "run var base = 1;";
                  "run " ++ jjs Fixture.web3JSCode "var x = 1; throw x" ].
Proof.
  split; [reflexivity|].
  destruct (Parse_failure_keeps_cell (list string) Fixture.otto_New Fixture.newCell
              Fixture.cell_Set Fixture.registerHandlers Fixture.cell_Run
              Fixture.cell_Get Fixture.ValueString Fixture.web3JSCode
              Fixture.jail0 "chat" "var x = 1; throw x" []
              (OtherError "Error: thrown by the script")
              [ "set jeth"; "handlers chat"; "run var base = 1;";
                "run " ++ jjs Fixture.web3JSCode "var x = 1; throw x" ])
    as (jail' & Hparse & Hcell & _).
  - right. split; reflexivity.
  - eapply fails_script; by_eval.
  - exists jail'. split; [exact Hparse | exact Hcell].
Defined.

(** C10 on a jail whose cell for the chat has run a script: the registry
    holds a cell on a new engine afterwards. *)
Lemma NewCell_replaces_registered_cell_witness :
  Cell (list string) Fixture.jail1 "chat" = Ok ["run var answer = 42"]
  /\ exists jail',
      Fixture.new_cell Fixture.jail1 "chat" = (Ok [], Some jail')
      /\ Cell (list string) jail' "chat" = Ok [].
Proof.
  split; [by_eval|].
  destruct (NewCell_replaces_registered_cell (list string) Fixture.otto_New
              Fixture.newCell Fixture.jail1 "chat" [] eq_refl)
    as (jail' & Hnew & _ & Hcell & _).
  exists jail'. split; [exact Hnew | exact Hcell].
Defined.

(* ===================================================================== *)
(** * Properties of the script's call *)
(* ===================================================================== *)

Section ScriptClaims.

Variable JSON_parse : string -> result string Value.
Variable JSON_stringify : Value -> Value.
Variable ToPropertyKey : Value -> string.
Variable apply : string -> Value -> Globals -> result string Value * Globals.

(** A step of the walk gives a value that counts as true, or undefined. *)
Lemma descend_falsy catalog name :
  truthy (descend ToPropertyKey catalog name) = false ->
  descend ToPropertyKey catalog name = VUndefined.
Proof.
  unfold descend. destruct (truthy catalog); [|reflexivity].
  destruct (member catalog (ToPropertyKey name)) as [v|e]; [|reflexivity].
  destruct (truthy v) eqn:E; [congruence|reflexivity].
Qed.

(** From undefined the walk stays at undefined. *)
Lemma descend_from_undefined names :
  fold_left (descend ToPropertyKey) names VUndefined = VUndefined.
Proof. induction names as [|n names IH]; [reflexivity|exact IH]. Qed.

(** C8 (amended): once its two arguments have parsed, a cycle of [call]
    sets the global [context], and only it, to an empty object before it
    looks for the function to run: what [context] held before has no
    effect on the cycle; the function runs on the other globals as the
    cycle found them, and what it leaves, with its result in
    [callResult], stays for the next cycle; and a cycle that finds no
    function changes nothing but [context].  That last case is stated
    where the walk reads what an object has of its own: for a catalog
    that itself counts as false, and for a walk that comes to an object
    without the next name, that name being none of those every object has
    from [Object.prototype]. *)
Theorem call_resets_context_only pathStr paramsStr (g : Globals) params path :
  JSON_parse paramsStr = Ok params ->
  JSON_parse pathStr = Ok path ->
  (forall c,
      call JSON_parse JSON_stringify ToPropertyKey apply pathStr paramsStr
           (<["context" := c]> g)
      = call JSON_parse JSON_stringify ToPropertyKey apply pathStr paramsStr
             (<["context" := VObject []]> g))
  /\ (forall names catalog f,
        path = VArray names ->
        g !! "_status_catalog" = Some catalog ->
        fold_left (descend ToPropertyKey) names catalog = VFunction f ->
        snd (call JSON_parse JSON_stringify ToPropertyKey apply pathStr paramsStr g)
        = match apply f params (<["context" := VObject []]> g) with
          | (Ok v, g1) => <["callResult" := v]> g1
          | (Err _, g1) => g1
          end)
  /\ (forall names catalog,
        path = VArray names ->
        g !! "_status_catalog" = Some catalog ->
        truthy catalog = false ->
        call JSON_parse JSON_stringify ToPropertyKey apply pathStr paramsStr g
        = (Ok VNull, <["context" := VObject []]> g))
  /\ (forall pre name post catalog ps,
        path = VArray (pre ++ name :: post) ->
        g !! "_status_catalog" = Some catalog ->
        fold_left (descend ToPropertyKey) pre catalog = VObject ps ->
        objectPrototypeName (ToPropertyKey name) = false ->
        truthy (descend ToPropertyKey (VObject ps) name) = false ->
        call JSON_parse JSON_stringify ToPropertyKey apply pathStr paramsStr g
        = (Ok VNull, <["context" := VObject []]> g)).
Proof.
  intros Hparams Hpath. split; [|split; [|split]].
  - intros c. unfold call. rewrite Hparams, Hpath.
    rewrite !insert_insert_eq. reflexivity.
  - intros names catalog f -> Hcat Hfn. unfold call.
    rewrite Hparams, Hpath. unfold global at 1.
    rewrite lookup_insert_ne by discriminate. rewrite Hcat, Hfn. simpl.
    destruct (apply f params _) as [[v|e] g1]; simpl; [|reflexivity].
    repeat match goal with
           | |- context [match ?x with _ => _ end] => destruct x
           end; reflexivity.
  - intros names catalog -> Hcat Hfalse. unfold call.
    rewrite Hparams, Hpath. unfold global.
    rewrite lookup_insert_ne by discriminate. rewrite Hcat.
    assert (Hwalk : fold_left (descend ToPropertyKey) names catalog = VUndefined
                    \/ fold_left (descend ToPropertyKey) names catalog = catalog).
    { destruct names as [|n names]; [right; reflexivity|left]. simpl.
      unfold descend at 2. rewrite Hfalse. apply descend_from_undefined. }
    destruct Hwalk as [-> | ->]; [reflexivity|]. rewrite Hfalse. reflexivity.
  - intros pre name post catalog ps -> Hcat Hpre _ Hmiss. rewrite <- Hpre in Hmiss.
    unfold call. rewrite Hparams, Hpath. unfold global.
    rewrite lookup_insert_ne by discriminate. rewrite Hcat.
    rewrite fold_left_app. simpl.
    rewrite (descend_falsy _ _ Hmiss), descend_from_undefined. reflexivity.
Qed.

End ScriptClaims.

(** C8, as the specification has it, fails on the script: a global that a
    function sets during one cycle, here [seen], is there in the next
    cycle, which has not set it; and so is the global [callResult] that
    [call] itself sets, after a next cycle that finds no function to run. *)
Lemma call_keeps_globals_across_cycles :
  Fixture.globals0 !! "seen" = None
  /\ snd (Fixture.cycle (lit "['commands','remember']") "5" Fixture.globals0) !! "seen"
     = Some (VNumber 5)
  /\ fst (Fixture.cycle (lit "['commands','recall']") "null"
            (snd (Fixture.cycle (lit "['commands','remember']") "5" Fixture.globals0)))
     = Ok (VString (lit "{'result':5}"))
  /\ Fixture.globals0 !! "callResult" = None
  /\ snd (Fixture.cycle (lit "['commands','tag']") "5" Fixture.globals0) !! "callResult"
     = Some (VBool true)
  /\ snd (Fixture.cycle (lit "['commands','nothing']") "null"
            (snd (Fixture.cycle (lit "['commands','tag']") "5" Fixture.globals0)))
       !! "callResult"
     = Some (VBool true).
Proof. repeat split; by_eval. Qed.

(** C8 (amended) on two cycles: the first runs [tag], which adds to the
    context; the second runs as if the context had been empty.  And on the
    path [["commands","nothing"]], whose last name the object of the
    commands does not have: the cycle returns null and only resets the
    context. *)
Lemma call_resets_context_only_witness :
  snd (Fixture.cycle (lit "['commands','tag']") "5" Fixture.globals0) !! "context"
  = Some (VObject [("42", VObject [("tag", VNumber 5)])])
  /\ Fixture.cycle (lit "['commands','context']") "null"
       (<["context" := VObject [("42", VObject [("tag", VNumber 5)])]]>
          (snd (Fixture.cycle (lit "['commands','tag']") "5" Fixture.globals0)))
     = Fixture.cycle (lit "['commands','context']") "null"
         (<["context" := VObject []]>
            (snd (Fixture.cycle (lit "['commands','tag']") "5" Fixture.globals0)))
  /\ Fixture.cycle (lit "['commands','nothing']") "null"
       (snd (Fixture.cycle (lit "['commands','tag']") "5" Fixture.globals0))
     = (Ok VNull,
        <["context" := VObject []]>
          (snd (Fixture.cycle (lit "['commands','tag']") "5" Fixture.globals0))).
Proof.
  split; [by_eval|]. split.
  - destruct (call_resets_context_only Fixture.parse Fixture.JSON_stringify
                Fixture.ValueString Fixture.apply
                (lit "['commands','context']") "null"
                (snd (Fixture.cycle (lit "['commands','tag']") "5" Fixture.globals0))
                VNull
                (VArray [VString "commands"; VString "context"])
                ltac:(by_eval) ltac:(by_eval))
      as (Hreset & _).
    apply Hreset.
  - destruct (call_resets_context_only Fixture.parse Fixture.JSON_stringify
                Fixture.ValueString Fixture.apply
                (lit "['commands','nothing']") "null"
                (snd (Fixture.cycle (lit "['commands','tag']") "5" Fixture.globals0))
                VNull
                (VArray [VString "commands"; VString "nothing"])
                ltac:(by_eval) ltac:(by_eval))
      as (_ & _ & _ & Hmissing).
    apply (Hmissing [VString "commands"] (VString "nothing") []
             (VObject [ ("commands",
                         VObject [ ("remember", VFunction "remember");
                                   ("recall", VFunction "recall");
                                   ("tag", VFunction "tag");
                                   ("context", VFunction "context") ]);
                        ("responses", VObject []) ])
             [ ("remember", VFunction "remember");
               ("recall", VFunction "recall");
               ("tag", VFunction "tag");
               ("context", VFunction "context") ]);
      by_eval.
Defined.

(* ===================================================================== *)
(** * Further properties of the envelopes *)
(* ===================================================================== *)

Lemma length_append s t : String.length (s ++ t) = String.length s + String.length t.
Proof.
  induction s as [|c s IH]; [reflexivity|].
  rewrite append_cons. simpl. rewrite IH. reflexivity.
Qed.

Lemma append_cancel_r s1 s2 t : s1 ++ t = s2 ++ t -> s1 = s2.
Proof.
  revert s2. induction s1 as [|c s1 IH]; intros [|d s2] H.
  - reflexivity.
  - apply (f_equal String.length) in H.
    rewrite append_nil_l, append_cons in H. simpl in H.
    rewrite length_append in H. lia.
  - apply (f_equal String.length) in H.
    rewrite append_nil_l, append_cons in H. simpl in H.
    rewrite length_append in H. lia.
  - rewrite !append_cons in H. injection H as -> H. f_equal. apply IH, H.
Qed.

(** What [Json.escape_byte] writes for a byte reads back as the byte. *)
Lemma unescape_escape_byte c rest :
  unescape (Json.escape_byte c ++ rest)
  = match unescape rest with Some t => Some (String c t) | None => None end.
Proof.
  destruct c as [[] [] [] [] [] [] [] []];
    match goal with
    | |- context [Json.escape_byte ?c] =>
        let e := eval vm_compute in (Json.escape_byte c) in
        change (Json.escape_byte c) with e
    end;
    repeat first [rewrite append_cons | rewrite append_nil_l];
    cbn; destruct (unescape rest); reflexivity.
Qed.

Lemma unescape_escape s : unescape (Json.escape s) = Some s.
Proof.
  induction s as [|c s IH]; [reflexivity|].
  simpl. rewrite unescape_escape_byte, IH. reflexivity.
Qed.

Lemma escape_injective s1 s2 : Json.escape s1 = Json.escape s2 -> s1 = s2.
Proof.
  intros H. apply (f_equal unescape) in H.
  rewrite !unescape_escape in H. congruence.
Qed.




(** X2: on messages of bytes below 0x80, [makeError] gives different
    envelopes for different messages: the message reads back from the
    envelope. *)
Theorem makeError_injective m1 m2 :
  ascii_only m1 = true -> ascii_only m2 = true ->
  makeError m1 = makeError m2 -> m1 = m2.
Proof.
  intros _ _ H. unfold makeError in H.
  rewrite (quote_plain "error") in H by reflexivity.
  unfold Json.quote in H.
  repeat first [rewrite append_assoc in H | rewrite append_cons in H
               | rewrite append_nil_l in H].
  apply escape_injective.
  apply (append_cancel_r _ _ (String dquote "}")).
  congruence.
Qed.

(** X2 on two messages that differ in a byte the encoder escapes. *)
Lemma makeError_injective_witness :
  ascii_only "a<b" = true /\ ascii_only "a&b" = true
  /\ makeError "a<b" <> makeError "a&b".
Proof.
  split; [reflexivity|]. split; [reflexivity|].
  intros H.
  apply (makeError_injective "a<b" "a&b" eq_refl eq_refl) in H.
  discriminate H.
Defined.

(** X3: without an error, [makeResult] gives the same envelope for two
    texts exactly when they are the same after the replacement of
    [undefined] by [null]: the texts [undefined] and [null] share an
    envelope, and no other two texts do. *)
Theorem makeResult_same_envelope_iff r1 r2 :
  makeResult r1 None = makeResult r2 None <-> normalized r1 = normalized r2.
Proof.
  unfold makeResult. fold (normalized r1). fold (normalized r2).
  split; [|intros ->; reflexivity].
  intros H.
  repeat apply String.app_inj in H.
  apply (append_cancel_r _ _ "}"), H.
Qed.

(* ===================================================================== *)
(** * Further properties of the jail *)
(* ===================================================================== *)

Section RegistryExtras.

Variable VM : Type.
Variable otto_New : VM.
Variable newCell : string -> VM -> result error VM.
Variable cell_Set : string -> Value -> VM -> option error * VM.
Variable registerHandlers : string -> VM -> option error * VM.
Variable cell_Run : string -> VM -> result error Value * VM.
Variable cell_Get : string -> VM -> result error Value.
Variable cell_Call : string -> list Value -> VM -> (Value * option error) * VM.
Variable Value_String : Value -> string.
Variable web3JSCode : string.

Local Abbreviation ParseX :=
  (Parse VM otto_New newCell cell_Set registerHandlers cell_Run cell_Get
         Value_String web3JSCode).
Local Abbreviation initCellX :=
  (initCell VM cell_Set registerHandlers cell_Run cell_Get Value_String web3JSCode).
Local Abbreviation CallX := (Call VM cell_Call Value_String).

(** X4: a jail made by [New] has no cell: [Cell] fails for every chat id,
    and [Call] returns the error envelope that names the chat id.  [New]
    panics when, and only when, a dependency is nil. *)
Theorem New_jail_has_no_cell (N A T : Type)
    (nodeManager : option N) (accountManager : option A) (txQueueManager : option T) :
  (nodeManager <> None /\ accountManager <> None /\ txQueueManager <> None
   <-> exists jail, New VM N A T nodeManager accountManager txQueueManager = Ok jail)
  /\ forall jail chatID this args,
      New VM N A T nodeManager accountManager txQueueManager = Ok jail ->
      Cell VM jail chatID = Err (OtherError ("cell[" ++ chatID ++ "] doesn't exist"))
      /\ CallX jail chatID this args
         = (makeError ("cell[" ++ chatID ++ "] doesn't exist"), jail).
Proof.
  split.
  - destruct nodeManager, accountManager, txQueueManager; simpl; split;
      try (intros (? & ? & ?); congruence);
      try (intros [jail H]; discriminate);
      eauto; repeat split; congruence.
  - intros jail chatID this args H.
    destruct nodeManager, accountManager, txQueueManager; try discriminate.
    injection H as <-.
    unfold Call, Cell. simpl. rewrite lookup_empty. split; reflexivity.
Qed.

(** X5: on a chat id that has a cell, [Parse] makes no engine and no cell:
    whatever [otto.New] and [newCell] would give, it initializes the cell
    that is registered, from the state that cell is in. *)
Theorem Parse_reuses_registered_cell
    (otto_New' : VM) (newCell' : string -> VM -> result error VM)
    (jail : Jail VM) chatID js cell :
  cells jail !! chatID = Some cell ->
  ParseX (Some jail) chatID js
  = Parse VM otto_New' newCell' cell_Set registerHandlers cell_Run cell_Get
          Value_String web3JSCode (Some jail) chatID js
  /\ ParseX (Some jail) chatID js
     = (fst (initCellX jail chatID js cell),
        Some (withCell VM jail chatID (snd (initCellX jail chatID js cell)))).
Proof.
  intros Hcell. unfold Parse, Cell. rewrite Hcell.
  destruct (initCellX jail chatID js cell) as [out cell']. split; reflexivity.
Qed.

(** X6: whatever happens in it, [Parse] on a jail gives the jail back with
    the cells of the other chat ids and the base code as they were, and
    with every chat id that had a cell still having one. *)
Theorem Parse_keeps_other_cells (jail : Jail VM) chatID js :
  exists jail',
    snd (ParseX (Some jail) chatID js) = Some jail'
    /\ (forall other, other <> chatID -> cells jail' !! other = cells jail !! other)
    /\ baseJSCode jail' = baseJSCode jail
    /\ (forall c, is_Some (cells jail !! c) -> is_Some (cells jail' !! c)).
Proof.
  assert (Hwith : forall (j : Jail VM) cell',
             (forall other, other <> chatID ->
                cells (withCell VM j chatID cell') !! other = cells j !! other)
             /\ forall c, is_Some (cells j !! c) ->
                          is_Some (cells (withCell VM j chatID cell') !! c)).
  { intros j cell'. split.
    - intros other Hne. simpl. apply lookup_insert_ne. congruence.
    - intros c Hc. simpl. destruct (decide (chatID = c)) as [->|Hne].
      + rewrite lookup_insert_eq. eauto.
      + rewrite lookup_insert_ne by exact Hne. exact Hc. }
  unfold Parse, Cell, NewCell.
  destruct (cells jail !! chatID) as [cell|] eqn:Hcell.
  - destruct (initCellX jail chatID js cell) as [out cell'].
    eexists; split; [reflexivity|].
    destruct (Hwith jail cell') as [H1 H2]. auto.
  - destruct (newCell chatID otto_New) as [cell|mkerr].
    + simpl. rewrite lookup_insert_eq.
      match goal with
      | |- context [initCellX ?j chatID js cell] =>
          destruct (initCellX j chatID js cell) as [out cell'];
          destruct (Hwith j cell') as [H1 H2]
      end.
      eexists; split; [reflexivity|]. simpl in *. split; [|split].
      * intros other Hne. rewrite H1 by exact Hne.
        apply lookup_insert_ne. congruence.
      * reflexivity.
      * intros c Hc. apply H2. destruct (decide (chatID = c)) as [->|Hne].
        -- rewrite lookup_insert_eq. eauto.
        -- rewrite lookup_insert_ne by exact Hne. exact Hc.
    + exists jail. simpl. auto.
Qed.

(** X7: when every step succeeds, [Parse] returns [{"result": <catalog>}]
    with the text of the global [catalog], which is [{"result": null}]
    when that text is [undefined], and the registered cell is in the state
    the composed script left.  The steps run in this order: [jeth] is set,
    the handlers are registered, the base code with a semicolon after it
    is run, then the composed script, then [catalog] is read. *)
Theorem Parse_success (jail : Jail VM) chatID js cell c1 c2 v c3 v' c4 res :
  cells jail !! chatID = Some cell
  \/ (cells jail !! chatID = None /\ newCell chatID otto_New = Ok cell) ->
  cell_Set "jeth" (VObject []) cell = (None, c1) ->
  registerHandlers chatID c1 = (None, c2) ->
  cell_Run (baseJSCode jail ++ ";") c2 = (Ok v, c3) ->
  cell_Run (jjs web3JSCode js) c3 = (Ok v', c4) ->
  cell_Get "catalog" c4 = Ok res ->
  exists jail',
    ParseX (Some jail) chatID js
    = (lit "{'result': " ++ normalized (Value_String res) ++ "}", Some jail')
    /\ cells jail' !! chatID = Some c4.
Proof.
  intros Hcell H1 H2 H3 H4 H5.
  assert (Hinit : forall j, baseJSCode j = baseJSCode jail ->
            initCellX j chatID js cell
            = (lit "{'result': " ++ normalized (Value_String res) ++ "}", c4)).
  { intros j Hj. unfold initCell. rewrite H1, H2, Hj, H3, H4, H5.
    unfold makeResult. fold (normalized (Value_String res)).
    rewrite (quote_plain "result") by reflexivity. reflexivity. }
  unfold Parse, Cell, NewCell.
  destruct Hcell as [Hreg|[Hnone Hnew]].
  - rewrite Hreg, (Hinit jail eq_refl).
    eexists; split; [reflexivity|]. simpl. apply lookup_insert_eq.
  - rewrite Hnone, Hnew. simpl. rewrite lookup_insert_eq.
    rewrite Hinit by reflexivity.
    eexists; split; [reflexivity|]. simpl. apply lookup_insert_eq.
Qed.

(** X8: without a jail, or when the cell for an unregistered chat id
    cannot be made, [Parse] returns the error envelope and changes nothing:
    no cell is registered; and [NewCell] that fails leaves the registry,
    with the cell the chat id may have, as it was. *)
Theorem Parse_without_cell (jail : Jail VM) chatID js mkerr :
  newCell chatID otto_New = Err mkerr ->
  NewCell VM otto_New newCell (Some jail) chatID = (Err mkerr, Some jail)
  /\ NewCell VM otto_New newCell None chatID = (Err ErrInvalidJail, None)
  /\ ParseX None chatID js = (makeError (Error ErrInvalidJail), None)
  /\ (cells jail !! chatID = None ->
      ParseX (Some jail) chatID js = (makeError (Error mkerr), Some jail)).
Proof.
  intros Hnew. unfold Parse, NewCell, Cell. rewrite Hnew.
  repeat split. intros ->. reflexivity.
Qed.

(** X9: [Call] registers no cell and removes none: the chat ids that have
    a cell are the same after it, the cells of the other chat ids and the
    base code are as they were, and on a chat id without a cell it returns
    the error envelope that names the chat id and changes nothing. *)
Theorem Call_keeps_registry (jail : Jail VM) chatID this args :
  dom (cells (snd (CallX jail chatID this args))) = dom (cells jail)
  /\ (forall other, other <> chatID ->
        cells (snd (CallX jail chatID this args)) !! other = cells jail !! other)
  /\ baseJSCode (snd (CallX jail chatID this args)) = baseJSCode jail
  /\ (cells jail !! chatID = None ->
      CallX jail chatID this args
      = (makeError ("cell[" ++ chatID ++ "] doesn't exist"), jail)).
Proof.
  unfold Call, Cell.
  destruct (cells jail !! chatID) as [cell|] eqn:Hcell.
  - destruct (cell_Call "call" [VString this; VString args] cell)
      as [[res err] cell'].
    simpl. split; [|split; [|split]].
    + apply dom_insert_lookup_L. eauto.
    + intros other Hne. apply lookup_insert_ne. congruence.
    + reflexivity.
    + discriminate.
  - simpl. repeat split.
Qed.

(** X10: after a [Parse] that had a cell to work on, whether it succeeded
    or failed, [Call] on the same chat id finds that cell and calls the
    script function [call] in the engine state [Parse] left, with [this]
    and [args] for its arguments. *)
Theorem Parse_then_Call (jail : Jail VM) chatID js this args cell :
  cells jail !! chatID = Some cell
  \/ (cells jail !! chatID = None /\ newCell chatID otto_New = Ok cell) ->
  exists jail',
    snd (ParseX (Some jail) chatID js) = Some jail'
    /\ let cell' := snd (initCellX jail chatID js cell) in
       let '((res, err), cell'') :=
         cell_Call "call" [VString this; VString args] cell' in
       CallX jail' chatID this args
       = (makeResult (Value_String res) err, withCell VM jail' chatID cell'').
Proof.
  intros Hcell. unfold Parse, Cell, NewCell.
  destruct Hcell as [Hreg|[Hnone Hnew]].
  - rewrite Hreg.
    destruct (initCellX jail chatID js cell) as [out cell'] eqn:Hinit.
    eexists; split; [reflexivity|]. simpl.
    unfold Call, Cell. simpl. rewrite lookup_insert_eq.
    destruct (cell_Call "call" [VString this; VString args] cell')
      as [[res err] cell'']. reflexivity.
  - rewrite Hnone, Hnew. simpl. rewrite lookup_insert_eq.
    replace (initCellX {| cells := <[chatID:=cell]> (cells jail);
                          baseJSCode := baseJSCode jail |} chatID js cell)
      with (initCellX jail chatID js cell) by reflexivity.
    destruct (initCellX jail chatID js cell) as [out cell'] eqn:Hinit.
    eexists; split; [reflexivity|]. simpl.
    unfold Call, Cell. simpl. rewrite lookup_insert_eq.
    destruct (cell_Call "call" [VString this; VString args] cell')
      as [[res err] cell'']. reflexivity.
Qed.

End RegistryExtras.

(** X4 on dependencies that are there. *)
Lemma New_jail_has_no_cell_witness :
  New (list string) unit unit unit (Some tt) (Some tt) (Some tt)
  = Ok (mkJail ∅ EmptyString)
  /\ Cell (list string) (mkJail ∅ EmptyString) "chat"
     = Err (OtherError "cell[chat] doesn't exist").
Proof.
  split; [reflexivity|].
  destruct (New_jail_has_no_cell (list string) Fixture.cell_Call Fixture.ValueString
              unit unit unit (Some tt) (Some tt) (Some tt)) as [_ H].
  destruct (H (mkJail ∅ EmptyString) "chat" "this" "args" eq_refl) as [Hcell _].
  exact Hcell.
Defined.

(** X5 on the jail that has a cell for [chat]: [Parse] is the same with a
    [newCell] that fails. *)
Lemma Parse_reuses_registered_cell_witness :
  Fixture.jail1.(cells) !! "chat" = Some ["run var answer = 42"]
  /\ Fixture.parse_script Fixture.jail1 "chat" "var y = 2"
     = Parse (list string) Fixture.otto_New newCell_failing Fixture.cell_Set
             Fixture.registerHandlers Fixture.cell_Run Fixture.cell_Get
             Fixture.ValueString Fixture.web3JSCode (Some Fixture.jail1)
             "chat" "var y = 2".
Proof.
  split; [by_eval|].
  apply (Parse_reuses_registered_cell (list string) Fixture.otto_New Fixture.newCell
           Fixture.cell_Set Fixture.registerHandlers Fixture.cell_Run
           Fixture.cell_Get Fixture.ValueString Fixture.web3JSCode
           Fixture.otto_New newCell_failing Fixture.jail1 "chat" "var y = 2"
           ["run var answer = 42"]).
  by_eval.
Defined.

(** X7 on a script that runs, in a jail with no cell for the chat. *)
Lemma Parse_success_witness :
  exists jail',
    Fixture.parse_script Fixture.jail0 "chat" "var y = 2"
    = (lit "{'result': {}}", Some jail')
    /\ cells jail' !! "chat"
       = Some [ "set jeth"; "handlers chat"; "run var base = 1;";
                "run " ++ jjs Fixture.web3JSCode "var y = 2" ].
Proof.
  destruct (Parse_success (list string) Fixture.otto_New Fixture.newCell
              Fixture.cell_Set Fixture.registerHandlers Fixture.cell_Run
              Fixture.cell_Get Fixture.ValueString Fixture.web3JSCode
              Fixture.jail0 "chat" "var y = 2" []
              ["set jeth"]
              ["set jeth"; "handlers chat"]
              VUndefined
              ["set jeth"; "handlers chat"; "run var base = 1;"]
              VUndefined
              [ "set jeth"; "handlers chat"; "run var base = 1;";
                "run " ++ jjs Fixture.web3JSCode "var y = 2" ]
              (VString "{}"))
    as (jail' & Hparse & Hcell);
    [right; split; reflexivity | by_eval | by_eval | by_eval | by_eval | by_eval |].
  exists jail'. split; [exact Hparse | exact Hcell].
Defined.

(** X8 on a [newCell] that fails, in a jail with no cell for the chat. *)
Lemma Parse_without_cell_witness :
  Parse (list string) Fixture.otto_New newCell_failing Fixture.cell_Set
        Fixture.registerHandlers Fixture.cell_Run Fixture.cell_Get
        Fixture.ValueString Fixture.web3JSCode (Some Fixture.jail0)
        "chat" "var y = 2"
  = (lit "{'error':'no engine'}", Some Fixture.jail0).
Proof.
  destruct (Parse_without_cell (list string) Fixture.otto_New newCell_failing
              Fixture.cell_Set Fixture.registerHandlers Fixture.cell_Run
              Fixture.cell_Get Fixture.ValueString Fixture.web3JSCode
              Fixture.jail0 "chat" "var y = 2" (OtherError "no engine") eq_refl)
    as (_ & _ & _ & H).
  apply H. reflexivity.
Defined.

(** X9 on a jail with no cell for the chat. *)
Lemma Call_keeps_registry_witness :
  Call (list string) Fixture.cell_Call Fixture.ValueString Fixture.jail0
       "chat" "this" "args"
  = (makeError "cell[chat] doesn't exist", Fixture.jail0).
Proof.
  destruct (Call_keeps_registry (list string) Fixture.cell_Call Fixture.ValueString
              Fixture.jail0 "chat" "this" "args") as (_ & _ & _ & H).
  rewrite H by reflexivity. reflexivity.
Defined.

(** X10 on a [Parse] whose script throws: [Call] finds the cell [Parse]
    made and gets the error of [cell.Call] from it. *)
Lemma Parse_then_Call_witness :
  exists jail',
    snd (Fixture.parse_script Fixture.jail0 "chat" "throw 1") = Some jail'
    /\ fst (Call (list string) Fixture.cell_Call Fixture.ValueString jail'
                 "chat" "this" "args")
       = makeError "TypeError: 'call' is not a function".
Proof.
  destruct (Parse_then_Call (list string) Fixture.otto_New Fixture.newCell
              Fixture.cell_Set Fixture.registerHandlers Fixture.cell_Run
              Fixture.cell_Get Fixture.cell_Call Fixture.ValueString
              Fixture.web3JSCode Fixture.jail0 "chat" "throw 1" "this" "args" [])
    as (jail' & Hparse & Hcall); [right; split; reflexivity|].
  exists jail'. split; [exact Hparse|].
  simpl in Hcall. rewrite Hcall. reflexivity.
Defined.

(* ===================================================================== *)
(** * Further properties of Send *)
(* ===================================================================== *)

Section SendExtras.

Variable W : Type.
Variable stringify : W -> Value -> result error string.
Variable unmarshalCalls : string -> result string (list RPCCall).
Variable unmarshalCall : string -> result string RPCCall.
Variable Execute : RPCCall -> W -> result error Props * W.

Local Abbreviation SendX := (Send W stringify unmarshalCalls unmarshalCall Execute).
Local Abbreviation SendRecordedX :=
  (SendRecorded W Execute stringify unmarshalCalls unmarshalCall).
Local Abbreviation decodeX := (decodeRequest unmarshalCalls unmarshalCall).

(** The calls that reach the policy are all the calls, when it answers
    none of them with a fatal error, and otherwise the calls up to and
    including the first that it answers so. *)
Lemma executed_cases reqs w :
  (noFatal W Execute reqs w = true /\ executed W Execute reqs w = reqs)
  \/ exists pre req post msg w',
       reqs = (pre ++ req :: post)%list
       /\ noFatal W Execute pre w = true
       /\ Execute req (stateAfter W Execute pre w) = (Err (StopRPCCallError msg), w')
       /\ executed W Execute reqs w = (pre ++ [req])%list.
Proof.
  revert w. induction reqs as [|req reqs IH]; intros w.
  - left. split; reflexivity.
  - cbn [noFatal executed].
    destruct (Execute req w) as [r w1] eqn:Hx.
    assert (Hstep : forall pre, stateAfter W Execute (req :: pre) w
                                = stateAfter W Execute pre w1)
      by (intros pre; simpl; rewrite Hx; reflexivity).
    destruct r as [res|[msg|msg]].
    + destruct (IH w1) as [[Hnf Hex]|(pre & r & post & msg & w' & -> & Hnf & Hr & Hex)].
      * left. rewrite Hex. split; [exact Hnf|reflexivity].
      * right. exists (req :: pre), r, post, msg, w'.
        rewrite Hstep, Hex. simpl. rewrite Hx. repeat split; assumption.
    + right. exists [], req, reqs, msg, w1. simpl. repeat split. exact Hx.
    + destruct (IH w1) as [[Hnf Hex]|(pre & r & post & msg' & w' & -> & Hnf & Hr & Hex)].
      * left. rewrite Hex. split; [exact Hnf|reflexivity].
      * right. exists (req :: pre), r, post, msg', w'.
        rewrite Hstep, Hex. simpl. rewrite Hx. repeat split; assumption.
Qed.

(** X11: on a batch with no call in it, [Send] returns an empty array and
    the policy is not called. *)
Theorem Send_empty_batch arg w log raw :
  stringify w arg = Ok raw ->
  startsWith "[" raw = true ->
  unmarshalCalls raw = Ok [] ->
  SendX arg w = (Returned (VArray []), w)
  /\ SendRecordedX arg w log = (Returned (VArray []), (w, log)).
Proof.
  intros Hs Hb Hd.
  pose proof (decodeRequest_batch unmarshalCalls unmarshalCall _ _ Hb Hd) as Hdec.
  assert (Hsend : SendX arg w = (Returned (VArray []), w))
    by (unfold Send; rewrite Hs, Hdec; reflexivity).
  split; [exact Hsend|].
  rewrite (SendRecorded_decoded _ _ _ _ _ _ _ _ _ _ _ Hs Hdec), Hsend.
  simpl. rewrite app_nil_r. reflexivity.
Qed.

(** X12: a request that does not serialize, or whose text does not decode
    as a whole, has no effect: no call reaches the policy, not even the
    calls of a batch that come before a malformed one, and [Send] ends in
    an exception or in the panic. *)
Theorem Send_undecoded_request_has_no_effect arg w log :
  (exists err, stringify w arg = Err err)
  \/ (exists raw, stringify w arg = Ok raw
                 /\ forall batch reqs, decodeX raw <> DecCalls batch reqs) ->
  snd (SendRecordedX arg w log) = (w, log)
  /\ snd (SendX arg w) = w
  /\ ((exists msg, fst (SendX arg w) = Thrown msg)
      \/ (exists msg, fst (SendX arg w) = Panicked msg)).
Proof.
  unfold SendRecorded, Send. simpl.
  intros [[err Hs]|(raw & Hs & Hdec)]; rewrite Hs.
  - repeat split. left. eauto.
  - destruct (decodeX raw) as [|batch err|batch reqs] eqn:Hd.
    + repeat split. right. eauto.
    + repeat split. left. eauto.
    + exfalso. exact (Hdec batch reqs eq_refl).
Qed.

(** X13: the policy gets the calls of a request in the order of the
    request, each at most once, and nothing else: all of them when it
    answers none with a fatal error, and otherwise those up to and
    including the first that it answers so. *)
Theorem Send_calls_policy_in_request_order arg w log raw batch reqs :
  stringify w arg = Ok raw ->
  decodeX raw = DecCalls batch reqs ->
  exists calls,
    snd (snd (SendRecordedX arg w log)) = (log ++ calls)%list
    /\ ((noFatal W Execute reqs w = true /\ calls = reqs)
        \/ exists pre req post msg w',
             reqs = (pre ++ req :: post)%list
             /\ noFatal W Execute pre w = true
             /\ Execute req (stateAfter W Execute pre w)
                = (Err (StopRPCCallError msg), w')
             /\ calls = (pre ++ [req])%list).
Proof.
  intros Hs Hdec. exists (executed W Execute reqs w). split.
  - rewrite (SendRecorded_decoded _ _ _ _ _ _ _ _ _ _ _ Hs Hdec). reflexivity.
  - apply executed_cases.
Qed.

(** X14: the response has the shape of the request.  For the same call,
    sent alone or as a batch of one, the policy is called alike; a fatal
    answer gives the same error response both ways, and any other answer
    gives the entry itself for the single request and the array of that
    one entry for the batch. *)
Theorem Send_single_and_batch_of_one arg1 arg2 w raw1 raw2 req :
  stringify w arg1 = Ok raw1 ->
  startsWith "[" raw1 = true ->
  unmarshalCalls raw1 = Ok [req] ->
  stringify w arg2 = Ok raw2 ->
  raw2 <> EmptyString ->
  startsWith "[" raw2 = false ->
  unmarshalCall raw2 = Ok req ->
  snd (SendX arg1 w) = snd (SendX arg2 w)
  /\ match fst (Execute req w) with
     | Err (StopRPCCallError _) => fst (SendX arg1 w) = fst (SendX arg2 w)
     | _ => exists v, fst (SendX arg2 w) = Returned v
                      /\ fst (SendX arg1 w) = Returned (VArray [v])
     end.
Proof.
  intros Hs1 Hb1 Hd1 Hs2 Hne2 Hb2 Hd2.
  unfold Send.
  rewrite Hs1, (decodeRequest_batch unmarshalCalls unmarshalCall _ _ Hb1 Hd1).
  rewrite Hs2, (decodeRequest_single unmarshalCalls unmarshalCall _ _ Hne2 Hb2 Hd2).
  simpl. destruct (Execute req w) as [[res|[msg|msg]] w1]; simpl;
    split; try reflexivity; eexists; split; reflexivity.
Qed.

End SendExtras.

(** X11 on the empty array. *)
Lemma Send_empty_batch_witness :
  Fixture.send (VArray []) 0 = (Returned (VArray []), 0).
Proof.
  destruct (Send_empty_batch nat Fixture.stringify Fixture.unmarshalCalls
              Fixture.unmarshalCall Fixture.Execute (VArray []) 0 [] "[]"
              ltac:(by_eval) ltac:(by_eval) ltac:(by_eval)) as [H _].
  exact H.
Defined.

(** X12 on a batch whose second element is no call: the first call does
    not reach the policy. *)
Lemma Send_undecoded_request_has_no_effect_witness :
  snd (SendRecorded nat Fixture.Execute Fixture.stringify Fixture.unmarshalCalls
         Fixture.unmarshalCall (VArray [Fixture.rpc "a" [] 1; VNumber 5]) 0 [])
  = (0, []).
Proof.
  destruct (Send_undecoded_request_has_no_effect nat Fixture.stringify
              Fixture.unmarshalCalls Fixture.unmarshalCall Fixture.Execute
              (VArray [Fixture.rpc "a" [] 1; VNumber 5]) 0 []) as [H _];
    [|exact H].
  right. exists (lit "[{'method':'a','params':[],'id':1},5]").
  split; [by_eval|]. intros batch reqs. vm_compute. discriminate.
Defined.

(** X13 on the batch whose second call is fatal: the policy gets the first
    two calls. *)
Lemma Send_calls_policy_in_request_order_witness :
  exists calls,
    snd (snd (SendRecorded nat Fixture.Execute Fixture.stringify
                Fixture.unmarshalCalls Fixture.unmarshalCall Fixture.batch_stop 0 []))
    = calls
    /\ (calls = [Fixture.rpc_call "a" [] 1; Fixture.rpc_call "stop" [] 2]).
Proof.
  destruct (Send_calls_policy_in_request_order nat Fixture.stringify
              Fixture.unmarshalCalls Fixture.unmarshalCall Fixture.Execute
              Fixture.batch_stop 0 []
              (lit "[{'method':'a','params':[],'id':1},{'method':'stop','params':[],'id':2},{'method':'bad','params':[],'id':3}]")
              true
              [Fixture.rpc_call "a" [] 1; Fixture.rpc_call "stop" [] 2;
               Fixture.rpc_call "bad" [] 3]
              ltac:(by_eval) ltac:(by_eval))
    as (calls & Hlog & _).
  exists calls. split; [exact Hlog|].
  transitivity
    (snd (snd (SendRecorded nat Fixture.Execute Fixture.stringify
                 Fixture.unmarshalCalls Fixture.unmarshalCall Fixture.batch_stop 0 [])));
    [symmetry; exact Hlog | by_eval].
Defined.

(** X14 on the call [foo] sent alone and as a batch of one. *)
Lemma Send_single_and_batch_of_one_witness :
  exists v,
    fst (Fixture.send Fixture.single_foo 0) = Returned v
    /\ fst (Fixture.send (VArray [Fixture.single_foo]) 0) = Returned (VArray [v]).
Proof.
  destruct (Send_single_and_batch_of_one nat Fixture.stringify Fixture.unmarshalCalls
              Fixture.unmarshalCall Fixture.Execute
              (VArray [Fixture.single_foo]) Fixture.single_foo 0
              (lit "[{'method':'foo','params':[1,2],'id':7}]")
              (lit "{'method':'foo','params':[1,2],'id':7}")
              (Fixture.rpc_call "foo" [VNumber 1; VNumber 2] 7)
              ltac:(by_eval) ltac:(by_eval) ltac:(by_eval) ltac:(by_eval)
              ltac:(discriminate) ltac:(by_eval) ltac:(by_eval))
    as [_ H].
  vm_compute in H. exact H.
Defined.

(* ===================================================================== *)
(** * Further properties of the script *)
(* ===================================================================== *)

Lemma assoc_setProp_eq k v ps : assoc k (setProp k v ps) = Some v.
Proof.
  induction ps as [|[k' v'] ps IH]; simpl.
  - rewrite String.eqb_refl. reflexivity.
  - destruct (String.eqb k k') eqn:E; simpl.
    + rewrite String.eqb_refl. reflexivity.
    + rewrite E. exact IH.
Qed.

Lemma assoc_setProp_ne k k' v ps :
  k' <> k -> assoc k' (setProp k v ps) = assoc k' ps.
Proof.
  intros Hne. induction ps as [|[k0 v0] ps IH]; simpl.
  - destruct (String.eqb_spec k' k); [congruence|reflexivity].
  - destruct (String.eqb_spec k k0) as [->|Hk]; simpl.
    + destruct (String.eqb_spec k' k0); [congruence|reflexivity].
    + destruct (String.eqb k' k0); [reflexivity|exact IH].
Qed.

(** [addContext] touches no global but [context]. *)
Lemma addContext_frame ns key value (g : Globals) name :
  name <> "context" ->
  snd (addContext ns key value g) !! name = g !! name.
Proof.
  intros Hne. unfold addContext, global.
  destruct (g !! "context") as [c|]; [|reflexivity].
  destruct c; try reflexivity.
  destruct (default VUndefined _); simpl;
    rewrite ?lookup_insert_ne by congruence; reflexivity.
Qed.

(** X15: after [addContext(ns, key, value)] on a context that has no
    namespace [ns], or has an object there, the context has [value] under
    [key] in the namespace [ns]; the other keys of that namespace, the
    other namespaces and the other globals are as they were. *)
Theorem addContext_stores ns key value (g : Globals) ctx :
  objectPrototypeName ns = false ->
  g !! "context" = Some (VObject ctx) ->
  assoc ns ctx = None \/ (exists ps, assoc ns ctx = Some (VObject ps)) ->
  exists g' ctx' ps',
    addContext ns key value g = (Ok tt, g')
    /\ g' !! "context" = Some (VObject ctx')
    /\ assoc ns ctx' = Some (VObject ps')
    /\ assoc key ps' = Some value
    /\ (forall key', key' <> key ->
          assoc key' ps' = match assoc ns ctx with
                           | Some (VObject ps) => assoc key' ps
                           | _ => None
                           end)
    /\ (forall ns', ns' <> ns -> assoc ns' ctx' = assoc ns' ctx)
    /\ (forall name, name <> "context" -> g' !! name = g !! name).
Proof.
  intros _ Hctx Hns. unfold addContext, global. rewrite Hctx.
  destruct Hns as [Hnone|[ps Hsome]].
  - rewrite Hnone, assoc_setProp_eq. simpl.
    eexists _, _, _. split; [reflexivity|].
    split; [apply lookup_insert_eq|].
    split; [apply assoc_setProp_eq|].
    split; [simpl; rewrite String.eqb_refl; reflexivity|].
    split; [|split].
    + intros key' Hne. simpl.
      destruct (String.eqb_spec key' key); [congruence|reflexivity].
    + intros ns' Hne. rewrite !assoc_setProp_ne by exact Hne. reflexivity.
    + intros name Hne. rewrite !lookup_insert_ne by congruence. reflexivity.
  - rewrite Hsome. simpl. rewrite Hsome. simpl.
    eexists _, _, _. split; [reflexivity|].
    split; [apply lookup_insert_eq|].
    split; [apply assoc_setProp_eq|].
    split; [apply assoc_setProp_eq|].
    split; [|split].
    + intros key' Hne. apply assoc_setProp_ne, Hne.
    + intros ns' Hne. apply assoc_setProp_ne, Hne.
    + intros name Hne. rewrite !lookup_insert_ne by congruence. reflexivity.
Qed.

(** X16: [addContext] that fails changes nothing.  It throws, and leaves
    the globals as they were, when there is no global [context], when
    [context] is not an object but undefined, null, a boolean, a number or
    a string, and when the context has null or undefined for the
    namespace.  When the context has a boolean, a number or a string for
    the namespace, it returns without an exception and stores nothing. *)
Theorem addContext_failure ns key value (g : Globals) :
  (g !! "context" = None ->
   addContext ns key value g = (Err (ReferenceError "context"), g))
  /\ (forall c, g !! "context" = Some c -> isPrimitive c = true ->
        addContext ns key value g = (Err (TypeError "invalid 'in' operand"), g))
  /\ (forall ctx x, g !! "context" = Some (VObject ctx) -> assoc ns ctx = Some x ->
        match x with
        | VUndefined | VNull =>
            addContext ns key value g
            = (Err (TypeError "cannot set property of undefined"), g)
        | VBool _ | VNumber _ | VString _ => addContext ns key value g = (Ok tt, g)
        | _ => True
        end).
Proof.
  unfold addContext, global. split; [|split].
  - intros ->. reflexivity.
  - intros c -> Hc. destruct c; try discriminate; reflexivity.
  - intros ctx x Hctx Hx. rewrite Hctx, Hx. simpl. rewrite Hx. simpl.
    rewrite (insert_id g "context" (VObject ctx) Hctx).
    destruct x; auto.
Qed.

Section ScriptExtras.

Variable JSON_parse : string -> result string Value.
Variable JSON_stringify : Value -> Value.
Variable ToPropertyKey : Value -> string.
Variable apply : string -> Value -> Globals -> result string Value * Globals.

Local Abbreviation callX := (call JSON_parse JSON_stringify ToPropertyKey apply).
Local Abbreviation descendX := (descend ToPropertyKey).

(** X17: when one of its two arguments is no JSON text, [call] throws the
    error of [JSON.parse] before it does anything else: every global, the
    context of the cycle before included, is as it was. *)
Theorem call_invalid_arguments pathStr paramsStr (g : Globals) e :
  JSON_parse paramsStr = Err e
  \/ (exists params, JSON_parse paramsStr = Ok params)
     /\ JSON_parse pathStr = Err e ->
  call JSON_parse JSON_stringify ToPropertyKey apply pathStr paramsStr g = (Err e, g)
  /\ snd (call JSON_parse JSON_stringify ToPropertyKey apply pathStr paramsStr g)
       !! "context"
     = g !! "context".
Proof.
  unfold call. intros [->|[[params ->] ->]]; split; reflexivity.
Qed.

(** X18: when the walk along the path comes, at any place, to an object
    that has nothing under the next name, the path resolves to nothing,
    whatever names follow: [call] returns null, throws nothing and runs no
    function; only [context] changes. *)
Theorem call_missing_name_returns_null
    pathStr paramsStr (g : Globals) params pre name post catalog ps :
  JSON_parse paramsStr = Ok params ->
  JSON_parse pathStr = Ok (VArray (pre ++ name :: post)) ->
  g !! "_status_catalog" = Some catalog ->
  fold_left descendX pre catalog = VObject ps ->
  objectPrototypeName (ToPropertyKey name) = false ->
  truthy (descendX (VObject ps) name) = false ->
  callX pathStr paramsStr g = (Ok VNull, <["context" := VObject []]> g).
Proof.
  intros Hparams Hpath Hcat Hpre _ Hmiss. rewrite <- Hpre in Hmiss. unfold call.
  rewrite Hparams, Hpath. unfold global.
  rewrite lookup_insert_ne by discriminate. rewrite Hcat.
  rewrite fold_left_app. simpl.
  rewrite (descend_falsy ToPropertyKey _ _ Hmiss), descend_from_undefined.
  reflexivity.
Qed.

(** X19: a path that resolves to something that is no function (the empty
    path, which resolves to the catalog itself, is one) makes [call] throw
    a TypeError; no function runs and [callResult] is not set: only
    [context] changes. *)
Theorem call_non_function_throws
    pathStr paramsStr (g : Globals) params names catalog :
  JSON_parse paramsStr = Ok params ->
  JSON_parse pathStr = Ok (VArray names) ->
  g !! "_status_catalog" = Some catalog ->
  truthy (fold_left descendX names catalog) = true ->
  (forall f, fold_left descendX names catalog <> VFunction f) ->
  callX pathStr paramsStr g
  = (Err (TypeError "fn is not a function"), <["context" := VObject []]> g).
Proof.
  intros Hparams Hpath Hcat Htrue Hfn. unfold call.
  rewrite Hparams, Hpath. unfold global.
  rewrite lookup_insert_ne by discriminate. rewrite Hcat, Htrue. simpl.
  destruct (fold_left descendX names catalog) eqn:E; try reflexivity.
  exfalso. exact (Hfn _ eq_refl).
Qed.

(** X20: the context [call] returns is the context of this cycle.  When
    the function it runs adds [value] under [key] for the current message
    id, by [addContext], and returns [r], [call] returns the text of
    [{result: r, context: {key: value}}]: nothing the context held before
    the cycle is in it. *)
Theorem call_returns_context_of_cycle
    pathStr paramsStr (g : Globals) params names catalog f status mid key value r :
  JSON_parse paramsStr = Ok params ->
  JSON_parse pathStr = Ok (VArray names) ->
  g !! "_status_catalog" = Some catalog ->
  fold_left descendX names catalog = VFunction f ->
  g !! "status" = Some status ->
  member status "message_id" = Ok mid ->
  objectPrototypeName (ToPropertyKey mid) = false ->
  apply f params (<["context" := VObject []]> g)
  = (Ok r, snd (addContext (ToPropertyKey mid) key value
                           (<["context" := VObject []]> g))) ->
  fst (callX pathStr paramsStr g)
  = Ok (JSON_stringify (VObject [ ("result", r);
                                  ("context", VObject [(key, value)]) ])).
Proof.
  intros Hparams Hpath Hcat Hfn Hstatus Hmid _ Happly. unfold call.
  rewrite Hparams, Hpath. unfold global at 1.
  rewrite lookup_insert_ne by discriminate. rewrite Hcat, Hfn. simpl.
  rewrite Happly. clear Happly.
  unfold addContext, global. rewrite lookup_insert_eq. simpl.
  rewrite String.eqb_refl. simpl.
  rewrite lookup_insert_ne by discriminate. rewrite lookup_insert_eq.
  rewrite !lookup_insert_ne by discriminate. rewrite Hstatus, Hmid.
  simpl. rewrite String.eqb_refl. reflexivity.
Qed.

(** X21: [call] itself writes the globals [context] and [callResult] and
    no other: a global that the functions of the script leave alone is,
    after [call], what it was before, however [call] ends. *)
Theorem call_keeps_untouched_globals pathStr paramsStr (g : Globals) name :
  name <> "context" ->
  name <> "callResult" ->
  (forall f params g0, snd (apply f params g0) !! name = g0 !! name) ->
  snd (callX pathStr paramsStr g) !! name = g !! name.
Proof.
  intros Hctx Hres Happly. unfold call.
  assert (Hreset : (<["context" := VObject []]> g) !! name = g !! name)
    by (apply lookup_insert_ne; congruence).
  destruct (JSON_parse paramsStr) as [params|e]; [|reflexivity].
  destruct (JSON_parse pathStr) as [path|e]; [|reflexivity].
  destruct path; simpl; try exact Hreset;
    try (destruct (global "_status_catalog" _); exact Hreset).
  destruct (global "_status_catalog" _) as [catalog|e]; [|exact Hreset].
  destruct (negb (truthy (fold_left descendX elems catalog))); [exact Hreset|].
  destruct (fold_left descendX elems catalog); try exact Hreset.
  specialize (Happly f params (<["context" := VObject []]> g)).
  destruct (apply f params _) as [[v|e] g1]; simpl in *;
    [|rewrite Happly; exact Hreset].
  assert (Hg1 : (<["callResult" := v]> g1) !! name = g !! name)
    by (rewrite lookup_insert_ne by congruence; rewrite Happly; exact Hreset).
  repeat match goal with
         | |- context [match ?x with _ => _ end] => destruct x
         end; exact Hg1.
Qed.

End ScriptExtras.

(** X15 on the globals of the test script, whose context is empty. *)
Lemma addContext_stores_witness :
  exists g',
    addContext "42" "tag" (VNumber 5) Fixture.globals0 = (Ok tt, g')
    /\ g' !! "context" = Some (VObject [("42", VObject [("tag", VNumber 5)])]).
Proof.
  destruct (addContext_stores "42" "tag" (VNumber 5) Fixture.globals0 []
              ltac:(reflexivity) ltac:(by_eval) ltac:(left; reflexivity))
    as (g' & ctx' & ps' & Hadd & _).
  exists g'. split; [exact Hadd|].
  injection Hadd as <-. by_eval.
Defined.

(** X16 on globals without [context] and with a number for it. *)
Lemma addContext_failure_witness :
  addContext "42" "tag" (VNumber 5) ∅ = (Err (ReferenceError "context"), ∅)
  /\ addContext "42" "tag" (VNumber 5) (<["context" := VNumber 1]> ∅)
     = (Err (TypeError "invalid 'in' operand"), <["context" := VNumber 1]> ∅).
Proof.
  split.
  - destruct (addContext_failure "42" "tag" (VNumber 5) ∅) as (H & _).
    apply H. reflexivity.
  - destruct (addContext_failure "42" "tag" (VNumber 5)
                (<["context" := VNumber 1]> ∅)) as (_ & H & _).
    apply (H (VNumber 1)); reflexivity.
Defined.

(** X17 on a path that is no JSON text. *)
Lemma call_invalid_arguments_witness :
  Fixture.cycle "{" "null" Fixture.globals0
  = (Err "invalid character looking for beginning of value", Fixture.globals0).
Proof.
  apply (call_invalid_arguments Fixture.parse Fixture.JSON_stringify
           Fixture.ValueString Fixture.apply "{" "null" Fixture.globals0).
  right. split; [exists VNull; by_eval | by_eval].
Defined.

(** X18 on a path whose first name the catalog does not have. *)
Lemma call_missing_name_returns_null_witness :
  fst (Fixture.cycle (lit "['nothing','remember','x']") "5" Fixture.globals0)
  = Ok VNull.
Proof.
  unfold Fixture.cycle.
  rewrite (call_missing_name_returns_null Fixture.parse Fixture.JSON_stringify
             Fixture.ValueString Fixture.apply
             (lit "['nothing','remember','x']") "5" Fixture.globals0 (VNumber 5)
             [] (VString "nothing") [VString "remember"; VString "x"]
             (VObject [ ("commands",
                         VObject [ ("remember", VFunction "remember");
                                   ("recall", VFunction "recall");
                                   ("tag", VFunction "tag");
                                   ("context", VFunction "context") ]);
                        ("responses", VObject []) ])
             [ ("commands",
                VObject [ ("remember", VFunction "remember");
                          ("recall", VFunction "recall");
                          ("tag", VFunction "tag");
                          ("context", VFunction "context") ]);
               ("responses", VObject []) ]
             ltac:(by_eval) ltac:(by_eval) ltac:(by_eval) ltac:(reflexivity)
             ltac:(by_eval) ltac:(by_eval)).
  reflexivity.
Defined.

(** X19 on the empty path. *)
Lemma call_non_function_throws_witness :
  fst (Fixture.cycle "[]" "5" Fixture.globals0)
  = Err (TypeError "fn is not a function").
Proof.
  unfold Fixture.cycle.
  rewrite (call_non_function_throws Fixture.parse Fixture.JSON_stringify
             Fixture.ValueString Fixture.apply "[]" "5" Fixture.globals0 (VNumber 5)
             []
             (VObject [ ("commands",
                         VObject [ ("remember", VFunction "remember");
                                   ("recall", VFunction "recall");
                                   ("tag", VFunction "tag");
                                   ("context", VFunction "context") ]);
                        ("responses", VObject []) ])
             ltac:(by_eval) ltac:(by_eval) ltac:(by_eval) ltac:(by_eval)
             ltac:(intros f; discriminate)).
  reflexivity.
Defined.

(** X20 on the function [tag] of the doubles, after a cycle that has left
    an entry in the context. *)
Lemma call_returns_context_of_cycle_witness :
  fst (Fixture.cycle (lit "['commands','tag']") "7"
         (<["context" := VObject [("42", VObject [("old", VNumber 1)])]]>
            Fixture.globals0))
  = Ok (VString (lit "{'result':true,'context':{'tag':7}}")).
Proof.
  unfold Fixture.cycle.
  rewrite (call_returns_context_of_cycle Fixture.parse Fixture.JSON_stringify
             Fixture.ValueString Fixture.apply
             (lit "['commands','tag']") "7"
             (<["context" := VObject [("42", VObject [("old", VNumber 1)])]]>
                Fixture.globals0)
             (VNumber 7) [VString "commands"; VString "tag"]
             (VObject [ ("commands",
                         VObject [ ("remember", VFunction "remember");
                                   ("recall", VFunction "recall");
                                   ("tag", VFunction "tag");
                                   ("context", VFunction "context") ]);
                        ("responses", VObject []) ])
             "tag" (VObject [("message_id", VString "42")]) (VString "42")
             "tag" (VNumber 7) (VBool true)
             ltac:(by_eval) ltac:(by_eval) ltac:(by_eval) ltac:(by_eval)
             ltac:(by_eval) ltac:(by_eval) ltac:(by_eval) ltac:(by_eval)).
  by_eval.
Defined.

(** X21 on the global [status] and the functions of the doubles, none of
    which writes it. *)
Lemma call_keeps_untouched_globals_witness :
  snd (Fixture.cycle (lit "['commands','remember']") "5" Fixture.globals0) !! "status"
  = Fixture.globals0 !! "status".
Proof.
  apply (call_keeps_untouched_globals Fixture.parse Fixture.JSON_stringify
           Fixture.ValueString Fixture.apply
           (lit "['commands','remember']") "5" Fixture.globals0 "status");
    [discriminate | discriminate |].
  intros f params g0. unfold Fixture.apply.
  destruct (String.eqb f "remember");
    [simpl; apply lookup_insert_ne; discriminate|].
  destruct (String.eqb f "recall"); [reflexivity|].
  destruct (String.eqb f "tag").
  - pose proof (addContext_frame "42" "tag" params g0 "status") as H.
    destruct (addContext "42" "tag" params g0) as [r g']. simpl in *.
    apply H. discriminate.
  - destruct (String.eqb f "context"); reflexivity.
Defined.

(* ===================================================================== *)
(** * BaseJS *)
(* ===================================================================== *)

Section BaseJSExtras.

Variable VM : Type.
Variable otto_New : VM.
Variable newCell : string -> VM -> result error VM.
Variable cell_Set : string -> Value -> VM -> option error * VM.
Variable registerHandlers : string -> VM -> option error * VM.
Variable cell_Run : string -> VM -> result error Value * VM.
Variable cell_Get : string -> VM -> result error Value.
Variable Value_String : Value -> string.
Variable web3JSCode : string.

(** X22: [BaseJS] touches no cell, and the code it sets is what the next
    [Parse] runs, with a semicolon after it, before the composed script,
    also on a cell that was registered before [BaseJS]: when that code
    fails there, [Parse] returns its error and the composed script is not
    run. *)
Theorem BaseJS_applies_to_registered_cells
    (jail : Jail VM) base chatID js cell c1 c2 e c3 :
  cells jail !! chatID = Some cell ->
  cell_Set "jeth" (VObject []) cell = (None, c1) ->
  registerHandlers chatID c1 = (None, c2) ->
  cell_Run (base ++ ";") c2 = (Err e, c3) ->
  cells (BaseJS VM jail base) = cells jail
  /\ Parse VM otto_New newCell cell_Set registerHandlers cell_Run cell_Get
           Value_String web3JSCode (Some (BaseJS VM jail base)) chatID js
     = (makeError (Error e), Some (withCell VM (BaseJS VM jail base) chatID c3)).
Proof.
  intros Hcell H1 H2 H3. split; [reflexivity|].
  unfold Parse, Cell. simpl. rewrite Hcell.
  unfold initCell. simpl. rewrite H1, H2, H3. reflexivity.
Qed.

End BaseJSExtras.

(** X22 on the jail that has a cell for [chat], with a base code that
    throws. *)
Lemma BaseJS_applies_to_registered_cells_witness :
  fst (Fixture.parse_script (BaseJS (list string) Fixture.jail1 "throw 0")
         "chat" "var y = 2")
  = lit "{'error':'Error: thrown by the script'}".
Proof.
  destruct (BaseJS_applies_to_registered_cells (list string) Fixture.otto_New
              Fixture.newCell Fixture.cell_Set Fixture.registerHandlers
              Fixture.cell_Run Fixture.cell_Get Fixture.ValueString
              Fixture.web3JSCode Fixture.jail1 "throw 0" "chat" "var y = 2"
              ["run var answer = 42"]
              ["run var answer = 42"; "set jeth"]
              ["run var answer = 42"; "set jeth"; "handlers chat"]
              (OtherError "Error: thrown by the script")
              ["run var answer = 42"; "set jeth"; "handlers chat"; "run throw 0;"]
              ltac:(by_eval) ltac:(by_eval) ltac:(by_eval) ltac:(by_eval))
    as [_ H].
  unfold Fixture.parse_script. rewrite H. reflexivity.
Defined.
